(** * Global Weather Dashboard (streamlit_app/main.py)

    A shallow embedding of the dashboard script: the synthetic data
    generator [generate_sample_data], the date picker of the sidebar, the
    filter of [load_weather_data] with its error boundary, the summary
    cards and the CSV export of [create_dashboard].

    Conventions of the embedding.
    - A [datetime] is its proleptic Gregorian ordinal (what Python's
      [toordinal] returns) together with the time of day; calendar
      arithmetic follows the algorithms of Python's [datetime] module.
    - Python floats are modelled by exact rationals ([Q]); [round] is
      round-half-to-even, as in Python 3.
    - The wall clock and the random number generator are part of the
      [world] the script runs in, together with the [st.cache_data] cache
      and the messages rendered on the page. *)

From Stdlib Require Import ZArith QArith Qround Qabs List String Ascii Bool Lia Arith FinFun Lqa.
Import ListNotations.

Local Open Scope Z_scope.

(* ================================================================== *)
(** * Calendar arithmetic (Python's [datetime] module) *)
(* ================================================================== *)

Module Calendar.

(** [_DAYS_IN_MONTH], indexed from 1; index 0 is the placeholder [-1]. *)
Definition _DAYS_IN_MONTH (month : Z) : Z :=
  match month with
  | 1 => 31 | 2 => 28 | 3 => 31 | 4 => 30 | 5 => 31 | 6 => 30
  | 7 => 31 | 8 => 31 | 9 => 30 | 10 => 31 | 11 => 30 | 12 => 31
  | _ => -1
  end.

(** [_DAYS_BEFORE_MONTH]: the running sum of [_DAYS_IN_MONTH]. *)
Definition _DAYS_BEFORE_MONTH (month : Z) : Z :=
  match month with
  | 1 => 0 | 2 => 31 | 3 => 59 | 4 => 90 | 5 => 120 | 6 => 151
  | 7 => 181 | 8 => 212 | 9 => 243 | 10 => 273 | 11 => 304 | 12 => 334
  | _ => -1
  end.

Definition _is_leap (year : Z) : bool :=
  (year mod 4 =? 0) && (negb (year mod 100 =? 0) || (year mod 400 =? 0)).

Definition _days_before_year (year : Z) : Z :=
  let y := year - 1 in
  y * 365 + y / 4 - y / 100 + y / 400.

Definition _days_before_month (year month : Z) : Z :=
  _DAYS_BEFORE_MONTH month + (if (2 <? month) && _is_leap year then 1 else 0).

Definition _ymd2ord (year month day : Z) : Z :=
  _days_before_year year + _days_before_month year month + day.

Definition _DI400Y : Z := 146097.
Definition _DI100Y : Z := 36524.
Definition _DI4Y : Z := 1461.

Definition MINORDINAL : Z := 1.
(** [date.max.toordinal()], the 31st of December 9999. *)
Definition MAXORDINAL : Z := 3652059.

(** The part of [_ord2ymd] after the 400-year cycle has been split off:
    [n] is the zero-based day within the cycle, [year] the first year
    of the cycle. *)
Definition _ord2ymd_cycle (year n : Z) : Z * Z * Z :=
  let n100 := n / _DI100Y in
  let n := n mod _DI100Y in
  let n4 := n / _DI4Y in
  let n := n mod _DI4Y in
  let n1 := n / 365 in
  let n := n mod 365 in
  let year := year + (n100 * 100 + n4 * 4 + n1) in
  if (n1 =? 4) || (n100 =? 4) then (year - 1, 12, 31)
  else
    let leapyear := (n1 =? 3) && (negb (n4 =? 24) || (n100 =? 3)) in
    let month := Z.shiftr (n + 50) 5 in
    let preceding :=
      _DAYS_BEFORE_MONTH month + (if (2 <? month) && leapyear then 1 else 0) in
    if n <? preceding then
      let month := month - 1 in
      let preceding :=
        preceding - (_DAYS_IN_MONTH month
                     + (if (month =? 2) && leapyear then 1 else 0)) in
      (year, month, n - preceding + 1)
    else (year, month, n - preceding + 1).

Definition _ord2ymd (n : Z) : Z * Z * Z :=
  let n := n - 1 in
  let n400 := n / _DI400Y in
  let n := n mod _DI400Y in
  _ord2ymd_cycle (n400 * 400 + 1) n.

(** A decimal digit as a character. *)
Definition digit (d : Z) : ascii :=
  match d with
  | 0 => "0" | 1 => "1" | 2 => "2" | 3 => "3" | 4 => "4"
  | 5 => "5" | 6 => "6" | 7 => "7" | 8 => "8" | _ => "9"
  end%char.

(** [%m], [%d]: two digits, zero padded. *)
Definition pad2 (n : Z) (rest : string) : string :=
  String (digit (n / 10 mod 10)) (String (digit (n mod 10)) rest).

(** [%Y]: four digits, zero padded. *)
Definition pad4 (n : Z) (rest : string) : string :=
  String (digit (n / 1000 mod 10))
    (String (digit (n / 100 mod 10)) (pad2 n rest)).

(** [strftime("%Y-%m-%d")] of the date with ordinal [n]. *)
Definition strftime_ymd (n : Z) : string :=
  let '(y, m, d) := _ord2ymd n in
  pad4 y (String "-" (pad2 m (String "-" (pad2 d EmptyString)))).

End Calendar.

(* ================================================================== *)
(** * Numbers: [round] and [random.uniform] *)
(* ================================================================== *)

Module Numeric.

Local Open Scope Q_scope.

(** [round(x)]: the nearest integer, ties going to the even one. *)
Definition round_half_even (x : Q) : Z :=
  let f := Qfloor x in
  match Qcompare (x - inject_Z f) (1 # 2) with
  | Lt => f
  | Gt => (f + 1)%Z
  | Eq => if Z.even f then f else (f + 1)%Z
  end.

(** [round(x, ndigits)]: the nearest multiple of [10^-ndigits]. *)
Definition round_ndigits (x : Q) (ndigits : nat) : Q :=
  let scale := Pos.pow 10 (Pos.of_nat ndigits) in
  match ndigits with
  | O => inject_Z (round_half_even x)
  | S _ => Qmake (round_half_even (x * inject_Z (Zpos scale))) scale
  end.

(** [random.uniform(a, b)] is [a + (b - a) * random()]; [u] is the value
    [random()] returned. *)
Definition uniform (a b u : Q) : Q := a + (b - a) * u.


End Numeric.

(* ================================================================== *)
(** * The world the script runs in *)
(* ================================================================== *)

(** One generated record: the dict built in [generate_sample_data]. *)
Record WeatherRecord : Type := mkRecord {
  date : string;
  region : string;
  temperature : Q;
  humidity : Z;
  wind_speed : Q;
  air_quality_index : Z;
  precipitation : Q
}.

(** A data frame built from a list of dicts: its rows, in order.
    [pd.DataFrame()] is the frame without rows. *)
Definition DataFrame : Type := list WeatherRecord.
Definition empty (df : DataFrame) : bool :=
  match df with [] => true | _ :: _ => false end.

Record datetime : Type := mkDatetime {
  toordinal : Z;          (* the calendar day *)
  microsecond_of_day : Z  (* the time within that day *)
}.

Inductive exn : Type :=
| OverflowError (msg : string).

(** [str(e)] *)
Definition str (e : exn) : string :=
  match e with OverflowError msg => msg end.

(** What [st.warning] and [st.error] put on the page. *)
Inductive element : Type :=
| Warning (body : string)
| Error (body : string).

Record world : Type := mkWorld {
  now_at : nat -> datetime;   (* what the k-th reading of the clock gives *)
  clock_reads : nat;          (* readings made so far *)
  random_at : nat -> Q;       (* what the k-th call of [random()] gives *)
  random_draws : nat;         (* calls made so far *)
  cache : option (list WeatherRecord);  (* [st.cache_data] of the generator *)
  page : list element         (* messages rendered so far *)
}.

Inductive result (A : Type) : Type :=
| Ok (a : A)
| Raise (e : exn).
Arguments Ok {A} a.
Arguments Raise {A} e.

(** Computations of the script: they read and change the world and
    either return or raise. *)
Definition M (A : Type) : Type := world -> result A * world.

Definition ret {A} (a : A) : M A := fun w => (Ok a, w).
Definition raise {A} (e : exn) : M A := fun w => (Raise e, w).
Definition bind {A B} (c : M A) (k : A -> M B) : M B :=
  fun w =>
    match c w with
    | (Ok a, w') => k a w'
    | (Raise e, w') => (Raise e, w')
    end.
(** [try: body except Exception as e: handler(e)] *)
Definition try_except {A} (body : M A) (handler : exn -> M A) : M A :=
  fun w =>
    match body w with
    | (Ok a, w') => (Ok a, w')
    | (Raise e, w') => handler e w'
    end.

Declare Scope script_scope.
Delimit Scope script_scope with script.
Notation "x <- c ;; k" := (bind c (fun x => k))
  (at level 61, c at next level, right associativity) : script_scope.
Notation "c ;;; k" := (bind c (fun _ => k))
  (at level 61, right associativity) : script_scope.
Local Open Scope script_scope.

(** [for x in xs: acc = body(acc, x)], the loop variable [acc] standing
    for the list the loop appends to. *)
Fixpoint for_each {A S} (xs : list A) (body : S -> A -> M S) (acc : S) : M S :=
  match xs with
  | [] => ret acc
  | x :: xs' => acc' <- body acc x ;; for_each xs' body acc'
  end.

(** [datetime.now()] *)
Definition datetime_now : M datetime :=
  fun w =>
    (Ok (now_at w (clock_reads w)),
     mkWorld (now_at w) (S (clock_reads w)) (random_at w) (random_draws w)
             (cache w) (page w)).

(** [random.random()] *)
Definition random_random : M Q :=
  fun w =>
    (Ok (random_at w (random_draws w)),
     mkWorld (now_at w) (clock_reads w) (random_at w) (S (random_draws w))
             (cache w) (page w)).

(** [random.uniform(a, b)] *)
Definition random_uniform (a b : Q) : M Q :=
  u <- random_random ;; ret (Numeric.uniform a b u).

(** [t - timedelta(days=days)]: the same time of day, [days] days
    earlier; [OverflowError] outside the range of [date]. *)
Definition sub_days (t : datetime) (days : Z) : M datetime :=
  let n := toordinal t - days in
  if (0 <? n) && (n <=? Calendar.MAXORDINAL)
  then ret (mkDatetime n (microsecond_of_day t))
  else raise (OverflowError "date value out of range").

Definition strftime (t : datetime) : string :=
  Calendar.strftime_ymd (toordinal t).

Definition st_warning (body : string) : M unit :=
  fun w =>
    (Ok tt,
     mkWorld (now_at w) (clock_reads w) (random_at w) (random_draws w)
             (cache w) (page w ++ [Warning body])).

Definition st_error (body : string) : M unit :=
  fun w =>
    (Ok tt,
     mkWorld (now_at w) (clock_reads w) (random_at w) (random_draws w)
             (cache w) (page w ++ [Error body])).

(** [@st.cache_data] on a function without arguments: the first call that
    returns stores its value, later calls return the stored value without
    running the function.  A call that raises stores nothing. *)
Definition st_cache_data (f : M (list WeatherRecord)) : M (list WeatherRecord) :=
  fun w =>
    match cache w with
    | Some data => (Ok data, w)
    | None =>
        match f w with
        | (Ok data, w') =>
            (Ok data,
             mkWorld (now_at w') (clock_reads w') (random_at w')
                     (random_draws w') (Some data) (page w'))
        | (Raise e, w') => (Raise e, w')
        end
    end.

(* ================================================================== *)
(** * The script *)
(* ================================================================== *)

Local Open Scope string_scope.

Definition regions : list string :=
  ["New York"; "London"; "Tokyo"; "Mumbai"; "Sydney"; "Paris"; "Dubai";
   "Singapore"].

(** [range(n)] *)
Definition range (n : nat) : list Z := map Z.of_nat (seq 0 n).

(** The body of the inner loop: one dict, its five values drawn in the
    order they are written. *)
Definition append_record (date : string) (data : list WeatherRecord)
    (region : string) : M (list WeatherRecord) :=
  t <- random_uniform 15 35 ;;
  h <- random_uniform 30 90 ;;
  ws <- random_uniform 0 30 ;;
  aqi <- random_uniform 20 150 ;;
  p <- random_uniform 0 100 ;;
  ret (data ++ [mkRecord date region
                  (Numeric.round_ndigits t 1)
                  (Numeric.round_half_even h)
                  (Numeric.round_ndigits ws 1)
                  (Numeric.round_half_even aqi)
                  (Numeric.round_ndigits p 2)])%list.

(** The body of the outer loop. *)
Definition append_day (data : list WeatherRecord) (i : Z)
    : M (list WeatherRecord) :=
  now <- datetime_now ;;
  day <- sub_days now i ;;
  for_each regions (append_record (strftime day)) data.

(** The function under the decorator. *)
Definition generate_sample_data_body : M (list WeatherRecord) :=
  for_each (range 30) append_day [].

Definition generate_sample_data : M (list WeatherRecord) :=
  st_cache_data generate_sample_data_body.

(** The sidebar's [st.date_input]: the bounds it is given, as dates.  The
    clock is read for the default value, for [min_value] and for
    [max_value], in this order. *)
Definition date_input_bounds : M (Z * Z) :=
  _ <- datetime_now ;;
  t <- datetime_now ;;
  lo <- sub_days t 30 ;;
  hi <- datetime_now ;;
  ret (toordinal lo, toordinal hi).

(** The two list comprehensions of [load_weather_data]. *)
Definition filter_by_date (data : list WeatherRecord) (day : string)
    : list WeatherRecord :=
  filter (fun d => String.eqb (date d) day) data.

Definition filter_by_region (data : list WeatherRecord) (selected_region : string)
    : list WeatherRecord :=
  if negb (String.eqb selected_region "All Regions")
  then filter (fun d => String.eqb (region d) selected_region) data
  else data.

(** The [try] block of [load_weather_data], its globals [selected_date]
    (a date, as its ordinal) and [selected_region] made parameters. *)
Definition load_weather_data_try (selected_date : Z) (selected_region : string)
    : M DataFrame :=
  data <- generate_sample_data ;;
  let filtered_data :=
    filter_by_date data (Calendar.strftime_ymd selected_date) in
  let filtered_data := filter_by_region filtered_data selected_region in
  match filtered_data with
  | [] =>
      st_warning "No data found for the selected filters." ;;;
      ret []
  | _ :: _ => ret filtered_data
  end.

(** The [except Exception as e] block. *)
Definition load_weather_data_except (e : exn) : M DataFrame :=
  st_error ("An error occurred: " ++ str e) ;;;
  ret [].

Definition load_weather_data (selected_date : Z) (selected_region : string)
    : M DataFrame :=
  try_except (load_weather_data_try selected_date selected_region)
             load_weather_data_except.

(** [sorted(list(set(names)))]: the names without repetition, in the
    order of their code points. *)
Fixpoint insert_sorted (s : string) (l : list string) : list string :=
  match l with
  | [] => [s]
  | x :: l' =>
      match String.compare s x with
      | Lt => s :: l
      | Eq => l
      | Gt => x :: insert_sorted s l'
      end
  end.

Definition sorted_set (names : list string) : list string :=
  fold_right insert_sorted [] names.

(** One run of the script up to the data frame [create_dashboard] works
    on: the sidebar (date picker, then the generator for the region
    list), then [load_weather_data].  [pick_date lo hi] and
    [pick_region options] are the user's choices in the two widgets. *)
Definition run_script (pick_date : Z -> Z -> Z)
    (pick_region : list string -> string) : M DataFrame :=
  bounds <- date_input_bounds ;;
  let selected_date := pick_date (fst bounds) (snd bounds) in
  sample_data <- generate_sample_data ;;
  let selected_region :=
    pick_region ("All Regions" :: sorted_set (map region sample_data)) in
  load_weather_data selected_date selected_region.

(** The choices of a user who takes the earliest date the picker offers,
    or the latest, and leaves the region on its first option. *)
Definition earliest_date (lo hi : Z) : Z := lo.
Definition latest_date (lo hi : Z) : Z := hi.
Definition first_option (options : list string) : string :=
  hd EmptyString options.





Local Close Scope string_scope.

(* ================================================================== *)
(** * Notions the statements are written with *)
(* ================================================================== *)

(** A check of one day [r] of the 400-year cycle: [_ymd2ord] undoes
    [_ord2ymd_cycle], and year, month and day are in their ranges. *)
Definition cycle_ok (r : Z) : bool :=
  let '(y, m, d) := Calendar._ord2ymd_cycle 1 r in
  (Calendar._ymd2ord y m d =? r + 1) && (1 <=? y) && (y <=? 400)
  && (1 <=? m) && (m <=? 12) && (1 <=? d) && (d <=? 31)
  && ((145730 <? r) || (y <=? 399)).

Fixpoint all_from (fuel : nat) (r : Z) (p : Z -> bool) : bool :=
  match fuel with
  | O => true
  | S k => if p r then all_from k (r + 1) p else false
  end.

(** The record [append_record] builds when the next five values of
    [random()] are [rnd k .. rnd (k + 4)]. *)
Definition record_of (date region : string) (rnd : nat -> Q) (k : nat)
    : WeatherRecord :=
  mkRecord date region
    (Numeric.round_ndigits (Numeric.uniform 15 35 (rnd k)) 1)
    (Numeric.round_half_even (Numeric.uniform 30 90 (rnd (1 + k)%nat)))
    (Numeric.round_ndigits (Numeric.uniform 0 30 (rnd (2 + k)%nat)) 1)
    (Numeric.round_half_even (Numeric.uniform 20 150 (rnd (3 + k)%nat)))
    (Numeric.round_ndigits (Numeric.uniform 0 100 (rnd (4 + k)%nat)) 2).

(** The records of one day, for the regions [rs]. *)
Fixpoint rows_from (date : string) (rs : list string) (rnd : nat -> Q)
    (k : nat) : list WeatherRecord :=
  match rs with
  | [] => []
  | r :: rs' => record_of date r rnd k :: rows_from date rs' rnd (5 + k)
  end.

(** The records of the days [days], the clock read at [c], [c + 1], ... *)
Fixpoint data_from (now : nat -> datetime) (rnd : nat -> Q) (days : list Z)
    (c k : nat) : list WeatherRecord :=
  match days with
  | [] => []
  | i :: days' =>
      rows_from (Calendar.strftime_ymd (toordinal (now c) - i)) regions rnd k
      ++ data_from now rnd days' (S c) (5 * List.length regions + k)
  end.

(** Every day the loop asks for is a day [date] can hold. *)
Fixpoint days_in_range (now : nat -> datetime) (days : list Z) (c : nat)
    : bool :=
  match days with
  | [] => true
  | i :: days' =>
      (0 <? toordinal (now c) - i)
      && (toordinal (now c) - i <=? Calendar.MAXORDINAL)
      && days_in_range now days' (S c)
  end.

Definition set_clock_draws (w : world) (c k : nat) : world :=
  mkWorld (now_at w) c (random_at w) k (cache w) (page w).

Definition add_element (w : world) (e : element) : world :=
  mkWorld (now_at w) (clock_reads w) (random_at w) (random_draws w)
          (cache w) (page w ++ [e]).

(** The clock shows days from which thirty days can be subtracted. *)
Definition clock_ok (w : world) : Prop :=
  forall k, 30 < toordinal (now_at w k) <= Calendar.MAXORDINAL.

(** [random()] returns values of the interval [0, 1). *)
Definition rng_ok (w : world) : Prop :=
  forall k, (0 <= random_at w k)%Q /\ (random_at w k < 1)%Q.

(** [data] is what the undecorated generator returned in some world. *)
Definition generated (data : list WeatherRecord) : Prop :=
  exists w0 w1,
    clock_ok w0 /\ rng_ok w0 /\
    generate_sample_data_body w0 = (Ok data, w1).

(** The cache holds nothing but what the generator returned. *)
Definition cache_ok (w : world) : Prop :=
  forall data, cache w = Some data -> generated data.

Definition sane (w : world) : Prop := clock_ok w /\ rng_ok w /\ cache_ok w.

(** The pair a record is looked up by. *)
Definition key (d : WeatherRecord) : string * string := (date d, region d).

(** The days the outer loop computes: the clock read at [c], [c + 1], ...
    and [i] days subtracted. *)
Fixpoint days_of (now : nat -> datetime) (days : list Z) (c : nat) : list Z :=
  match days with
  | [] => []
  | i :: days' => (toordinal (now c) - i) :: days_of now days' (S c)
  end.

(** One key per region for each of the days [days]. *)
Definition keys_of (days : list Z) : list (string * string) :=
  flat_map (fun d => map (fun r => (Calendar.strftime_ymd d, r)) regions) days.

(** [data] is what the undecorated generator returned in a world whose
    clock showed the day [D] at each of the thirty readings of the loop. *)
Definition generated_on (D : Z) (data : list WeatherRecord) : Prop :=
  exists w0 w1,
    clock_ok w0 /\ rng_ok w0 /\
    (forall p, (p < 30)%nat ->
               toordinal (now_at w0 (clock_reads w0 + p)%nat) = D) /\
    generate_sample_data_body w0 = (Ok data, w1).

(** The thirty days ending with [D], latest first. *)
Definition trailing_days (D : Z) : list Z :=
  map (fun p => D - Z.of_nat p) (seq 0 30).

(** The test of the two comprehensions of [load_weather_data] in one. *)
Definition selected (day selected_region : string) (d : WeatherRecord) : bool :=
  String.eqb (date d) day
  && (String.eqb selected_region "All Regions"
      || String.eqb (region d) selected_region).

Definition key_eqb (k1 k2 : string * string) : bool :=
  String.eqb (fst k1) (fst k2) && String.eqb (snd k1) (snd k2).



(* ------------------------------------------------------------------ *)
(** ** Worlds to run the script in *)

(** A stream of values of [random()]. *)
Definition sample_random (k : nat) : Q := Z.of_nat (k mod 97) # 97.

(** Noon, in microseconds. *)
Definition noon : Z := 43200000000.
(** The last microsecond of a day. *)
Definition before_midnight : Z := 86399999999.

(** A first run of the script, all of it on the day [D]. *)
Definition steady_world (D : Z) : world :=
  mkWorld (fun _ => mkDatetime D noon) 0 sample_random 0 None [].

(** A world in which midnight falls after the [k]-th reading of the
    clock: the day is [D] before and [D + 1] after. *)
Definition midnight_world (D : Z) (k : nat) : world :=
  mkWorld (fun j => if (j <? k)%nat then mkDatetime D before_midnight
                    else mkDatetime (D + 1) 0)
          0 sample_random 0 None [].

(** Values of [random()] that make the first temperature 15.1 and every
    other value the lower end of its range. *)
Definition mostly_zero (k : nat) : Q :=
  match k with O => 1 # 200 | S _ => 0 end.


(** What a computation returned, if it returned. *)
Definition returned {A} (r : result A * world) : option A :=
  match fst r with Ok a => Some a | Raise _ => None end.



(* ================================================================== *)
(** * The CSV export *)
(* ================================================================== *)

(** [weather_df.to_csv(index=False)] and a reader of what it writes.
    [to_csv] follows pandas: a header line, one line for each row, the
    fields separated by commas, each line ended by a line feed, strings
    quoted only where they need it, integers in decimal, floats as
    [repr] writes them.  The reader is the inverse the export is meant
    for: it knows the columns of the frame and their types. *)
Module Csv.

Local Open Scope string_scope.

Definition comma : ascii := ",".
Definition dot : ascii := ".".
Definition minus : ascii := "-".
Definition newline : ascii := "010".
Definition carriage_return : ascii := "013".
Definition double_quote : ascii := "034".

Fixpoint contains (c : ascii) (s : string) : bool :=
  match s with
  | EmptyString => false
  | String a s' => Ascii.eqb a c || contains c s'
  end.

(** The writer quotes a field that has a separator, a quote or a line
    break in it. *)
Definition needs_quoting (s : string) : bool :=
  contains comma s || contains double_quote s
  || contains newline s || contains carriage_return s.

Fixpoint double_quotes (s : string) : string :=
  match s with
  | EmptyString => EmptyString
  | String a s' =>
      if Ascii.eqb a double_quote
      then String a (String a (double_quotes s'))
      else String a (double_quotes s')
  end.

Definition write_string (s : string) : string :=
  if needs_quoting s
  then String double_quote (double_quotes s ++ String double_quote EmptyString)
  else s.

(** The decimal digits of [n], put before [rest]. *)
Fixpoint digits_of (fuel : nat) (n : Z) (rest : string) : string :=
  match fuel with
  | O => rest
  | S fuel' =>
      let rest' := String (Calendar.digit (n mod 10)) rest in
      if (n <? 10)%Z then rest' else digits_of fuel' (n / 10) rest'
  end.

(** A natural number has no more decimal digits than binary ones. *)
Definition write_nat (n : Z) (rest : string) : string :=
  digits_of (S (Z.to_nat (Z.log2 n))) n rest.

Definition write_int (z : Z) : string :=
  if (z <? 0)%Z then String minus (write_nat (- z) EmptyString) else write_nat z EmptyString.

(** The digits after the point of [num / den], a value below one: as
    many as there are, seventeen at most. *)
Fixpoint frac_digits (fuel : nat) (num den : Z) : string :=
  match fuel with
  | O => EmptyString
  | S fuel' =>
      if (num =? 0)%Z then EmptyString
      else String (Calendar.digit (10 * num / den))
                  (frac_digits fuel' ((10 * num) mod den) den)
  end.

(** A quotient of naturals as a decimal number: the whole part, the
    point, and the digits after it, one at least. *)
Definition write_unsigned (n d : Z) : string :=
  let frac := frac_digits 17 (n mod d) d in
  write_nat (n / d)
    (String dot (match frac with EmptyString => "0" | _ => frac end)).

(** [repr] of a float whose value is a decimal number of few digits:
    that decimal number, with at least one digit after the point. *)
Definition write_float (x : Q) : string :=
  let unsigned := write_unsigned (Z.abs (Qnum x)) (Zpos (Qden x)) in
  if (Qnum x <? 0)%Z then String minus unsigned else unsigned.

Fixpoint join (sep : ascii) (fields : list string) : string :=
  match fields with
  | [] => EmptyString
  | [f] => f
  | f :: fs => f ++ String sep (join sep fs)
  end.

Definition header : list string :=
  ["date"; "region"; "temperature"; "humidity"; "wind_speed";
   "air_quality_index"; "precipitation"].

Definition write_row (d : WeatherRecord) : list string :=
  [write_string (date d); write_string (region d);
   write_float (temperature d); write_int (humidity d);
   write_float (wind_speed d); write_int (air_quality_index d);
   write_float (precipitation d)].

Fixpoint write_lines (rows : list (list string)) : string :=
  match rows with
  | [] => EmptyString
  | fields :: rows' =>
      join comma fields ++ String newline (write_lines rows')
  end.

(** [to_csv(index=False)] of a frame with records. *)
Definition to_csv (df : DataFrame) : string :=
  write_lines (header :: map write_row df).

(** [s.split(sep)] *)
Fixpoint split (sep : ascii) (s : string) : list string :=
  match s with
  | EmptyString => [EmptyString]
  | String a s' =>
      if Ascii.eqb a sep then EmptyString :: split sep s'
      else match split sep s' with
           | [] => [String a EmptyString]
           | f :: fs => String a f :: fs
           end
  end.

(** The lines of a text, each ended by a line feed. *)
Fixpoint read_lines (pieces : list string) : list string :=
  match pieces with
  | [] => []
  | [EmptyString] => []
  | l :: pieces' => l :: read_lines pieces'
  end.

(** The value of a decimal digit, from its code. *)
Definition digit_value (a : ascii) : option Z :=
  let code := Z.of_N (N_of_ascii a) in
  if (48 <=? code)%Z && (code <=? 57)%Z then Some (code - 48)%Z else None.

(** Reads the digits [s] begins with: the number they continue [acc]
    to, how many they are, and what follows them. *)
Fixpoint read_digits (s : string) (acc : Z) (count : nat)
    : Z * nat * string :=
  match s with
  | EmptyString => (acc, count, s)
  | String a s' =>
      match digit_value a with
      | Some v => read_digits s' (10 * acc + v) (S count)
      | None => (acc, count, s)
      end
  end.

Definition read_nat (s : string) : option Z :=
  match read_digits s 0 0 with
  | (n, S _, EmptyString) => Some n
  | _ => None
  end.

Definition read_int (s : string) : option Z :=
  match s with
  | String a s' =>
      if Ascii.eqb a minus then option_map Z.opp (read_nat s')
      else read_nat s
  | EmptyString => None
  end.

Definition read_unsigned_float (s : string) : option Q :=
  match read_digits s 0 0 with
  | (whole, S _, String a s') =>
      if Ascii.eqb a dot then
        match read_digits s' whole 0 with
        | (all, S k, EmptyString) =>
            Some (Qmake all (Pos.pow 10 (Pos.of_nat (S k))))
        | _ => None
        end
      else None
  | _ => None
  end.

Definition read_float (s : string) : option Q :=
  match s with
  | String a s' =>
      if Ascii.eqb a minus then option_map Qopp (read_unsigned_float s')
      else read_unsigned_float s
  | EmptyString => None
  end.

(** A field that is not quoted is the string itself; quoted fields are
    not read. *)
Definition read_string (s : string) : option string :=
  if contains double_quote s then None else Some s.

Definition read_row (fields : list string) : option WeatherRecord :=
  match fields with
  | [f1; f2; f3; f4; f5; f6; f7] =>
      match read_string f1, read_string f2, read_float f3, read_int f4,
            read_float f5, read_int f6, read_float f7 with
      | Some d, Some r, Some t, Some h, Some ws, Some aqi, Some p =>
          Some (mkRecord d r t h ws aqi p)
      | _, _, _, _, _, _, _ => None
      end
  | _ => None
  end.

Fixpoint read_rows (lines : list string) : option (list WeatherRecord) :=
  match lines with
  | [] => Some []
  | l :: lines' =>
      match read_row (split comma l), read_rows lines' with
      | Some d, Some ds => Some (d :: ds)
      | _, _ => None
      end
  end.

Definition read_csv (text : string) : option DataFrame :=
  match read_lines (split newline text) with
  | h :: rows =>
      if list_eq_dec string_dec (split comma h) header
      then read_rows rows else None
  | [] => None
  end.

End Csv.

(** The text behind the download button of [create_dashboard]; there
    is no button for an empty frame. *)
Definition create_dashboard_csv (weather_df : DataFrame) : option string :=
  if negb (empty weather_df) then Some (Csv.to_csv weather_df) else None.

(** Two records with the same field values. *)
Definition same_values (a b : WeatherRecord) : Prop :=
  date a = date b /\ region a = region b /\
  (temperature a == temperature b)%Q /\ humidity a = humidity b /\
  (wind_speed a == wind_speed b)%Q /\
  air_quality_index a = air_quality_index b /\
  (precipitation a == precipitation b)%Q.

(** [x] is a decimal number with at most [k] digits after the point. *)
Definition decimal_places (k : nat) (x : Q) : Prop :=
  (Zpos (Qden x) | Z.abs (Qnum x) * 10 ^ Z.of_nat k).

(** A string the writer leaves as it is. *)
Definition plain (s : string) : Prop := Csv.needs_quoting s = false.

(** A record whose strings need no quotes and whose floats are decimal
    numbers of at most seventeen digits after the point. *)
Definition exportable (d : WeatherRecord) : Prop :=
  plain (date d) /\ plain (region d) /\
  decimal_places 17 (temperature d) /\
  decimal_places 17 (wind_speed d) /\
  decimal_places 17 (precipitation d).

(* ================================================================== *)
(** * The calendar *)
(* ================================================================== *)

Module CalendarFacts.
Import Calendar.

Lemma all_from_spec (p : Z -> bool) (fuel : nat) :
  forall r, all_from fuel r p = true ->
  forall x, r <= x < r + Z.of_nat fuel -> p x = true.
Proof.
  induction fuel as [|k IH]; intros r H x Hx.
  - lia.
  - cbn [all_from] in H. destruct (p r) eqn:Hr; [|discriminate].
    destruct (Z.eq_dec x r) as [->|Hne]; [assumption|].
    apply (IH (r + 1) H). lia.
Qed.

Lemma cycle_checked : all_from (Z.to_nat 146097) 0 cycle_ok = true.
Proof. vm_compute. reflexivity. Qed.

Lemma cycle_ok_at (r : Z) : 0 <= r < 146097 -> cycle_ok r = true.
Proof.
  intros Hr. apply (all_from_spec cycle_ok _ 0 cycle_checked).
  rewrite Z2Nat.id; lia.
Qed.

(** The years of a later cycle are those of the first, shifted. *)
Lemma _ord2ymd_cycle_shift (q r : Z) :
  _ord2ymd_cycle (q * 400 + 1) r =
  let '(y, m, d) := _ord2ymd_cycle 1 r in (y + 400 * q, m, d).
Proof.
  unfold _ord2ymd_cycle. cbv zeta.
  repeat match goal with
         | |- context [if ?b then _ else _] => destruct b
         end; f_equal; try f_equal; lia.
Qed.

Lemma _is_leap_shift (y q : Z) : _is_leap (y + 400 * q) = _is_leap y.
Proof.
  unfold _is_leap.
  replace (y + 400 * q) with (y + (100 * q) * 4) at 1 by lia.
  replace (y + 400 * q) with (y + (4 * q) * 100) at 1 by lia.
  replace (y + 400 * q) with (y + q * 400) by lia.
  now rewrite !Z_mod_plus_full.
Qed.

Lemma _days_before_year_shift (y q : Z) :
  _days_before_year (y + 400 * q) = _days_before_year y + 146097 * q.
Proof.
  unfold _days_before_year. cbv zeta.
  replace (y + 400 * q - 1) with (y - 1 + (100 * q) * 4) at 2 by lia.
  replace (y + 400 * q - 1) with (y - 1 + (4 * q) * 100) at 2 by lia.
  replace (y + 400 * q - 1) with (y - 1 + q * 400) at 2 by lia.
  rewrite !Z_div_plus_full by lia. lia.
Qed.

Lemma _ymd2ord_shift (y m d q : Z) :
  _ymd2ord (y + 400 * q) m d = _ymd2ord y m d + 146097 * q.
Proof.
  unfold _ymd2ord, _days_before_month.
  rewrite _is_leap_shift, _days_before_year_shift. lia.
Qed.

(** [_ymd2ord] undoes [_ord2ymd] on every ordinal a [date] can have, and
    the year, month and day are in their ranges. *)
Lemma _ord2ymd_spec (n : Z) :
  MINORDINAL <= n <= MAXORDINAL ->
  let '(y, m, d) := _ord2ymd n in
  _ymd2ord y m d = n /\ 1 <= y <= 9999 /\ 1 <= m <= 12 /\ 1 <= d <= 31.
Proof.
  unfold MINORDINAL, MAXORDINAL. intros Hn.
  unfold _ord2ymd, _DI400Y. cbv zeta.
  pose proof (Z.div_mod (n - 1) 146097 ltac:(lia)) as Hdm.
  pose proof (Z.mod_pos_bound (n - 1) 146097 ltac:(lia)) as Hr.
  set (q := (n - 1) / 146097) in *. set (r := (n - 1) mod 146097) in *.
  rewrite _ord2ymd_cycle_shift.
  pose proof (cycle_ok_at r Hr) as Hok. unfold cycle_ok in Hok.
  destruct (_ord2ymd_cycle 1 r) as [[y m] d].
  rewrite !andb_true_iff, orb_true_iff in Hok.
  rewrite Z.eqb_eq, !Z.leb_le, Z.ltb_lt in Hok.
  rewrite _ymd2ord_shift.
  assert (0 <= q <= 24) by lia.
  lia.
Qed.

Lemma digit_inj (a b : Z) :
  0 <= a <= 9 -> 0 <= b <= 9 -> digit a = digit b -> a = b.
Proof.
  intros Ha Hb.
  assert (Ea : a = 0 \/ a = 1 \/ a = 2 \/ a = 3 \/ a = 4 \/ a = 5 \/ a = 6
               \/ a = 7 \/ a = 8 \/ a = 9) by lia.
  assert (Eb : b = 0 \/ b = 1 \/ b = 2 \/ b = 3 \/ b = 4 \/ b = 5 \/ b = 6
               \/ b = 7 \/ b = 8 \/ b = 9) by lia.
  repeat (destruct Ea as [-> | Ea]); try subst a;
    repeat (destruct Eb as [-> | Eb]); try subst b;
    cbn; intros E; try reflexivity; discriminate E.
Qed.

Ltac digit_bounds :=
  repeat match goal with
         | H : context [?x mod 10] |- _ =>
             lazymatch goal with
             | _ : 0 <= x mod 10 < 10 |- _ => fail
             | _ => pose proof (Z.mod_pos_bound x 10 ltac:(lia))
             end
         end.

Lemma pad2_inj (a b : Z) (s t : string) :
  0 <= a < 100 -> 0 <= b < 100 -> pad2 a s = pad2 b t -> a = b /\ s = t.
Proof.
  intros Ha Hb E. unfold pad2 in E.
  injection E as E1 E0 Est. digit_bounds.
  apply digit_inj in E1; [| lia ..].
  apply digit_inj in E0; [| lia ..].
  split; [|assumption].
  revert E1 E0. Z.div_mod_to_equations. lia.
Qed.

Lemma pad4_inj (a b : Z) (s t : string) :
  0 <= a < 10000 -> 0 <= b < 10000 -> pad4 a s = pad4 b t -> a = b /\ s = t.
Proof.
  intros Ha Hb E. unfold pad4, pad2 in E.
  injection E as E3 E2 E1 E0 Est. digit_bounds.
  apply digit_inj in E3; [| lia ..].
  apply digit_inj in E2; [| lia ..].
  apply digit_inj in E1; [| lia ..].
  apply digit_inj in E0; [| lia ..].
  split; [|assumption].
  revert E3 E2 E1 E0. Z.div_mod_to_equations. lia.
Qed.

Lemma String_tail_eq (c : ascii) (s t : string) :
  String c s = String c t -> s = t.
Proof. intros E. now injection E. Qed.

(** Two days are written the same way only when they are the same day. *)
Lemma strftime_ymd_inj (a b : Z) :
  MINORDINAL <= a <= MAXORDINAL -> MINORDINAL <= b <= MAXORDINAL ->
  strftime_ymd a = strftime_ymd b -> a = b.
Proof.
  intros Ha Hb. unfold strftime_ymd.
  pose proof (_ord2ymd_spec a Ha) as Sa. pose proof (_ord2ymd_spec b Hb) as Sb.
  destruct (_ord2ymd a) as [[ya ma] da]. destruct (_ord2ymd b) as [[yb mb] db].
  intros E.
  apply pad4_inj in E; [|lia..]. destruct E as [-> E].
  apply String_tail_eq, pad2_inj in E; [|lia..]. destruct E as [-> E].
  apply String_tail_eq, pad2_inj in E; [|lia..]. destruct E as [-> _].
  lia.
Qed.

End CalendarFacts.

Example strftime_2024_02_29 :
  Calendar.strftime_ymd 738945 = "2024-02-29"%string.
Proof. reflexivity. Qed.

Example strftime_max :
  Calendar.strftime_ymd Calendar.MAXORDINAL = "9999-12-31"%string.
Proof. reflexivity. Qed.

Example strftime_min :
  Calendar.strftime_ymd Calendar.MINORDINAL = "0001-01-01"%string.
Proof. reflexivity. Qed.

(* ================================================================== *)
(** * Running the generator and the loader *)
(* ================================================================== *)

Lemma Ok_inj {A} (a b : A) (w w' : world) :
  (Ok a, w) = (Ok b, w') -> a = b /\ w = w'.
Proof. intros E. now injection E. Qed.

Lemma append_record_run (date : string) (data : list WeatherRecord)
    (r : string) (w : world) :
  append_record date data r w =
  (Ok (data ++ [record_of date r (random_at w) (random_draws w)]),
   set_clock_draws w (clock_reads w) (5 + random_draws w)).
Proof. reflexivity. Qed.

Lemma for_each_regions_run (date : string) (rs : list string) :
  forall data w,
  for_each rs (append_record date) data w =
  (Ok (data ++ rows_from date rs (random_at w) (random_draws w)),
   set_clock_draws w (clock_reads w) (5 * List.length rs + random_draws w)).
Proof.
  induction rs as [|r rs IH]; intros data w.
  - cbn. rewrite app_nil_r. now destruct w.
  - cbn [for_each]. unfold bind at 1. rewrite append_record_run.
    rewrite IH. cbn [rows_from random_at random_draws set_clock_draws
                     clock_reads now_at cache page List.length].
    rewrite <- app_assoc. cbn [app].
    unfold set_clock_draws. cbn [random_at now_at cache page].
    do 2 f_equal. lia.
Qed.

Lemma append_day_run (data : list WeatherRecord) (i : Z) (w : world) :
  let n := toordinal (now_at w (clock_reads w)) - i in
  append_day data i w =
  if (0 <? n) && (n <=? Calendar.MAXORDINAL)
  then (Ok (data ++ rows_from (Calendar.strftime_ymd n) regions
                      (random_at w) (random_draws w)),
        set_clock_draws w (S (clock_reads w))
                        (5 * List.length regions + random_draws w))
  else (Raise (OverflowError "date value out of range"),
        set_clock_draws w (S (clock_reads w)) (random_draws w)).
Proof.
  cbv zeta. unfold append_day, bind at 1, datetime_now.
  unfold bind at 1, sub_days. cbn [toordinal].
  destruct ((0 <? _) && _).
  - unfold ret at 1. rewrite for_each_regions_run. reflexivity.
  - reflexivity.
Qed.

Lemma for_each_days_run (days : list Z) :
  forall data w,
  days_in_range (now_at w) days (clock_reads w) = true ->
  for_each days append_day data w =
  (Ok (data ++ data_from (now_at w) (random_at w) days
                 (clock_reads w) (random_draws w)),
   set_clock_draws w (List.length days + clock_reads w)
     (List.length days * (5 * List.length regions) + random_draws w)).
Proof.
  induction days as [|i days IH]; intros data w H.
  - cbn. rewrite app_nil_r. now destruct w.
  - cbn [days_in_range] in H. apply andb_true_iff in H as [H1 H2].
    cbn [for_each]. unfold bind at 1. rewrite append_day_run. cbv zeta.
    rewrite H1. rewrite IH by exact H2.
    cbn [data_from]. rewrite <- app_assoc.
    unfold set_clock_draws. cbn [now_at random_at clock_reads random_draws cache page List.length].
    change (List.length regions) with 8%nat.
    do 2 f_equal; lia.
Qed.

Lemma days_in_range_ok (now : nat -> datetime) (days : list Z) :
  (forall k, 30 < toordinal (now k) <= Calendar.MAXORDINAL) ->
  Forall (fun i => 0 <= i <= 30) days ->
  forall c, days_in_range now days c = true.
Proof.
  intros Hnow Hdays. induction Hdays as [|i days Hi _ IH]; intros c.
  - reflexivity.
  - cbn [days_in_range]. rewrite IH, andb_true_r.
    specialize (Hnow c). apply andb_true_iff. split.
    + apply Z.ltb_lt. lia.
    + apply Z.leb_le. lia.
Qed.

Lemma range_bounds (n : nat) : Forall (fun i => 0 <= i < Z.of_nat n) (range n).
Proof.
  unfold range. apply Forall_forall. intros i Hi.
  apply in_map_iff in Hi as (p & <- & Hp). apply in_seq in Hp. lia.
Qed.

Lemma generate_sample_data_body_run (w : world) :
  clock_ok w ->
  generate_sample_data_body w =
  (Ok (data_from (now_at w) (random_at w) (range 30)
         (clock_reads w) (random_draws w)),
   set_clock_draws w (30 + clock_reads w) (1200 + random_draws w)).
Proof.
  intros Hc. unfold generate_sample_data_body.
  rewrite for_each_days_run.
  - reflexivity.
  - apply days_in_range_ok; [exact Hc|].
    eapply Forall_impl; [|apply (range_bounds 30)]. cbn. intros; lia.
Qed.



Lemma keys_rows_from (date : string) (rs : list string) (rnd : nat -> Q) :
  forall k, map key (rows_from date rs rnd k) = map (fun r => (date, r)) rs.
Proof. induction rs as [|r rs IH]; intros k; cbn; [|rewrite IH]; reflexivity. Qed.

Lemma keys_data_from (now : nat -> datetime) (rnd : nat -> Q) (days : list Z) :
  forall c k,
  map key (data_from now rnd days c k) = keys_of (days_of now days c).
Proof.
  induction days as [|i days IH]; intros c k; [reflexivity|].
  cbn [data_from days_of]. unfold keys_of. cbn [flat_map].
  rewrite map_app, keys_rows_from, IH. reflexivity.
Qed.

Lemma days_of_seq (now : nat -> datetime) (n : nat) :
  forall a c,
  days_of now (map Z.of_nat (seq a n)) c =
  map (fun p => toordinal (now (c + p)%nat) - Z.of_nat (a + p)) (seq 0 n).
Proof.
  induction n as [|n IH]; intros a c; [reflexivity|].
  cbn [seq map days_of]. rewrite IH, <- seq_shift, map_map.
  rewrite !Nat.add_0_r. f_equal.
  apply map_ext. intros p. now rewrite !Nat.add_succ_r.
Qed.

Lemma days_of_range (now : nat -> datetime) (n c : nat) :
  days_of now (range n) c =
  map (fun p => toordinal (now (c + p)%nat) - Z.of_nat p) (seq 0 n).
Proof. unfold range. now rewrite days_of_seq. Qed.

(** What is known of any collection the generator returned. *)
Lemma generated_shape (data : list WeatherRecord) :
  generated data ->
  exists now rnd c k,
    (forall j, 30 < toordinal (now j) <= Calendar.MAXORDINAL) /\
    (forall j, (0 <= rnd j)%Q /\ (rnd j < 1)%Q) /\
    data = data_from now rnd (range 30) c k.
Proof.
  intros (w0 & w1 & Hc & Hr & Hrun).
  rewrite generate_sample_data_body_run in Hrun by exact Hc.
  apply Ok_inj in Hrun as [<- _].
  now exists (now_at w0), (random_at w0), (clock_reads w0), (random_draws w0).
Qed.

(** A call of the decorated generator in a sane world. *)
Lemma generate_sample_data_run (w : world) :
  sane w ->
  exists data w',
    generate_sample_data w = (Ok data, w') /\
    generated data /\ sane w' /\ cache w' = Some data /\ page w' = page w /\
    now_at w' = now_at w /\
    (cache w = None ->
     data = data_from (now_at w) (random_at w) (range 30)
              (clock_reads w) (random_draws w) /\
     clock_reads w' = (30 + clock_reads w)%nat) /\
    (cache w <> None -> w' = w).
Proof.
  intros (Hc & Hr & Hk). unfold generate_sample_data, st_cache_data.
  destruct (cache w) as [data|] eqn:Hcache.
  - exists data, w.
    split; [reflexivity|]. split; [now apply Hk|].
    split.
    { split; [exact Hc|]. split; [exact Hr|]. exact Hk. }
    split; [exact Hcache|]. split; [reflexivity|]. split; [reflexivity|].
    split; [discriminate|reflexivity].
  - rewrite (generate_sample_data_body_run w Hc).
    eexists _, _. split; [reflexivity|].
    assert (G : generated (data_from (now_at w) (random_at w) (range 30)
                             (clock_reads w) (random_draws w))).
    { exists w, (set_clock_draws w (30 + clock_reads w) (1200 + random_draws w)).
      split; [exact Hc|]. split; [exact Hr|].
      now apply generate_sample_data_body_run. }
    split; [exact G|]. split.
    { split; [exact Hc|]. split; [exact Hr|].
      intros d E. cbn in E. injection E as <-. exact G. }
    split; [reflexivity|]. split; [reflexivity|]. split; [reflexivity|].
    split; [intros _; split; reflexivity | congruence].
Qed.

Lemma generated_on_keys (D : Z) (data : list WeatherRecord) :
  generated_on D data ->
  30 < D <= Calendar.MAXORDINAL /\ map key data = keys_of (trailing_days D).
Proof.
  intros (w0 & w1 & Hc & Hr & Hday & Hrun).
  rewrite generate_sample_data_body_run in Hrun by exact Hc.
  apply Ok_inj in Hrun as [<- _]. split.
  - rewrite <- (Hday 0%nat) by lia. apply Hc.
  - rewrite keys_data_from, days_of_range. unfold trailing_days. f_equal.
    apply map_ext_in. intros p Hp. apply in_seq in Hp.
    rewrite Hday by lia. reflexivity.
Qed.

Lemma in_keys_of (days : list Z) (s r : string) :
  In (s, r) (keys_of days) <->
  exists d, In d days /\ s = Calendar.strftime_ymd d /\ In r regions.
Proof.
  unfold keys_of. rewrite in_flat_map. split.
  - intros (d & Hd & Hin). apply in_map_iff in Hin as (r' & E & Hr).
    injection E as <- <-. now exists d.
  - intros (d & Hd & -> & Hr). exists d. split; [assumption|].
    apply in_map_iff. now exists r.
Qed.

Lemma NoDup_regions : NoDup regions.
Proof.
  unfold regions.
  repeat (constructor; [cbn; intuition discriminate|]). constructor.
Qed.

Lemma NoDup_keys_of (days : list Z) :
  NoDup days ->
  Forall (fun d => Calendar.MINORDINAL <= d <= Calendar.MAXORDINAL) days ->
  NoDup (keys_of days).
Proof.
  intros Hnd Hr. induction Hnd as [|d days Hnotin Hnd IH].
  - constructor.
  - apply Forall_cons_iff in Hr as [Hd Hr].
    change (keys_of (d :: days))
      with (map (fun r => (Calendar.strftime_ymd d, r)) regions ++ keys_of days).
    apply NoDup_app.
    + apply Injective_map_NoDup; [|apply NoDup_regions].
      intros a b E. now injection E.
    + now apply IH.
    + intros [s r] Hin Hin'.
      apply in_map_iff in Hin as (r' & E & _). injection E as <- <-.
      apply in_keys_of in Hin' as (d' & Hd' & E & _).
      apply CalendarFacts.strftime_ymd_inj in E.
      * subst d'. contradiction.
      * exact Hd.
      * rewrite Forall_forall in Hr. now apply Hr.
Qed.

Lemma NoDup_trailing_days (D : Z) : NoDup (trailing_days D).
Proof.
  unfold trailing_days. apply Injective_map_NoDup; [|apply seq_NoDup].
  intros a b E. lia.
Qed.

Lemma in_trailing_days (D d : Z) : In d (trailing_days D) <-> D - 29 <= d <= D.
Proof.
  unfold trailing_days. rewrite in_map_iff. split.
  - intros (p & <- & Hp). apply in_seq in Hp. lia.
  - intros H. exists (Z.to_nat (D - d)). split; [lia|]. apply in_seq. lia.
Qed.

Lemma trailing_days_in_range (D : Z) :
  30 < D <= Calendar.MAXORDINAL ->
  Forall (fun d => Calendar.MINORDINAL <= d <= Calendar.MAXORDINAL)
         (trailing_days D).
Proof.
  intros HD. apply Forall_forall. intros d Hd.
  apply in_trailing_days in Hd. unfold Calendar.MINORDINAL. lia.
Qed.

Lemma key_eqb_eq (k1 k2 : string * string) : key_eqb k1 k2 = true <-> k1 = k2.
Proof.
  destruct k1 as [a b], k2 as [c d]. unfold key_eqb. cbn [fst snd].
  rewrite andb_true_iff, !String.eqb_eq. split.
  - now intros [-> ->].
  - intros E. now injection E.
Qed.

Lemma filter_none {A} (f : A -> bool) (l : list A) :
  (forall x, In x l -> f x = false) -> filter f l = [].
Proof.
  intros H. rewrite (filter_ext_in f (fun _ => false) l H).
  apply filter_false.
Qed.

(** With a unique key, the lookup of a record's key finds that record
    and nothing else. *)
Lemma unique_key_lookup (l : list WeatherRecord) (x : WeatherRecord) :
  NoDup (map key l) -> In x l ->
  filter (fun y => key_eqb (key y) (key x)) l = [x].
Proof.
  induction l as [|y l IH]; intros Hnd Hin; [contradiction|].
  cbn [map] in Hnd. apply NoDup_cons_iff in Hnd as [Hnotin Hnd].
  cbn [filter]. destruct Hin as [->|Hin].
  - replace (key_eqb (key x) (key x)) with true
      by (symmetry; now apply key_eqb_eq).
    f_equal. apply filter_none. intros z Hz.
    destruct (key_eqb (key z) (key x)) eqn:E; [|reflexivity].
    apply key_eqb_eq in E. exfalso. apply Hnotin. rewrite <- E.
    now apply in_map.
  - destruct (key_eqb (key y) (key x)) eqn:E.
    + apply key_eqb_eq in E. exfalso. apply Hnotin. rewrite E.
      now apply in_map.
    + now apply IH.
Qed.

Lemma filter_by_region_date (data : list WeatherRecord) (day r : string) :
  filter_by_region (filter_by_date data day) r = filter (selected day r) data.
Proof.
  unfold filter_by_region, filter_by_date, selected.
  destruct (String.eqb r "All Regions"); cbn [negb].
  - apply filter_ext. intros d. now rewrite orb_true_l, andb_true_r.
  - induction data as [|d data IH]; [reflexivity|].
    cbn [filter]. destruct (String.eqb (date d) day); cbn [andb orb filter].
    + now rewrite IH.
    + exact IH.
Qed.

(** What [load_weather_data] does once the generator has returned. *)
Lemma load_weather_data_run (d : Z) (r : string) (w w1 : world)
    (data : list WeatherRecord) :
  generate_sample_data w = (Ok data, w1) ->
  let df := filter (selected (Calendar.strftime_ymd d) r) data in
  load_weather_data d r w =
  (Ok df,
   if empty df
   then add_element w1 (Warning "No data found for the selected filters.")
   else w1).
Proof.
  intros Hgen. cbv zeta.
  unfold load_weather_data, try_except, load_weather_data_try, bind at 1.
  rewrite Hgen, filter_by_region_date.
  destruct (filter _ data) as [|x df]; reflexivity.
Qed.

(** What it does when the generator raises. *)
Lemma load_weather_data_raise (d : Z) (r : string) (w w1 : world) (e : exn) :
  generate_sample_data w = (Raise e, w1) ->
  load_weather_data d r w =
  (Ok [], add_element w1 (Error ("An error occurred: " ++ str e))).
Proof.
  intros Hgen.
  unfold load_weather_data, try_except, load_weather_data_try, bind at 1.
  rewrite Hgen. reflexivity.
Qed.

(** A second call finds the value of the first in the cache. *)
Lemma generate_sample_data_cached (w : world) (data : list WeatherRecord) :
  cache w = Some data -> generate_sample_data w = (Ok data, w).
Proof.
  intros H. unfold generate_sample_data, st_cache_data. now rewrite H.
Qed.

Lemma generate_sample_data_fills_cache (w w1 : world)
    (data : list WeatherRecord) :
  generate_sample_data w = (Ok data, w1) -> cache w1 = Some data.
Proof.
  unfold generate_sample_data, st_cache_data.
  destruct (cache w) as [d|] eqn:Hc.
  - intros E. injection E as <- <-. exact Hc.
  - destruct (generate_sample_data_body w) as [[d|e] w'].
    + intros E. injection E as <- <-. reflexivity.
    + discriminate.
Qed.

(* ================================================================== *)
(** * Rounding and means *)
(* ================================================================== *)

Module NumericFacts.
Import Numeric.
















End NumericFacts.

(* ================================================================== *)
(** * The generator's records *)
(* ================================================================== *)



(** A property of every record [record_of] can build for a day and one
    of the regions holds of all the generator's records. *)
Lemma rows_from_Forall (P : WeatherRecord -> Prop) (rnd : nat -> Q)
    (date : string) (rs : list string) :
  (forall region k, In region rs -> P (record_of date region rnd k)) ->
  forall k, Forall P (rows_from date rs rnd k).
Proof.
  induction rs as [|r rs IH]; intros HP k; cbn [rows_from].
  - constructor.
  - constructor; [apply HP; now left | apply IH].
    intros region j Hin. apply HP. now right.
Qed.

Lemma data_from_Forall (P : WeatherRecord -> Prop) (now : nat -> datetime)
    (rnd : nat -> Q) :
  (forall n region k, In region regions ->
     P (record_of (Calendar.strftime_ymd n) region rnd k)) ->
  forall days c k, Forall P (data_from now rnd days c k).
Proof.
  intros HP days. induction days as [|i days IH]; intros c k; cbn [data_from].
  - constructor.
  - apply Forall_app. split; [|apply IH].
    apply rows_from_Forall. intros region j Hin. now apply HP.
Qed.



Lemma generated_on_NoDup_keys (D : Z) (data : list WeatherRecord) :
  generated_on D data -> NoDup (map key data).
Proof.
  intros G. apply generated_on_keys in G as [HD ->].
  apply NoDup_keys_of; [apply NoDup_trailing_days|].
  now apply trailing_days_in_range.
Qed.

(* ------------------------------------------------------------------ *)
(** ** The worlds of the examples *)

Lemma sample_random_ok (k : nat) :
  (0 <= sample_random k)%Q /\ (sample_random k < 1)%Q.
Proof.
  unfold sample_random, Qle, Qlt. cbn [Qnum Qden].
  pose proof (Nat.mod_upper_bound k 97 ltac:(discriminate)). lia.
Qed.

Lemma mostly_zero_ok (k : nat) :
  (0 <= mostly_zero k)%Q /\ (mostly_zero k < 1)%Q.
Proof. destruct k; split; reflexivity || discriminate. Qed.

Lemma steady_world_sane (D : Z) :
  30 < D <= Calendar.MAXORDINAL -> sane (steady_world D).
Proof.
  intros HD. split; [|split].
  - intros k. exact HD.
  - exact sample_random_ok.
  - intros data E. discriminate E.
Qed.

Lemma steady_world_generated_on (D : Z) (data : list WeatherRecord)
    (w : world) :
  30 < D <= Calendar.MAXORDINAL ->
  generate_sample_data_body (steady_world D) = (Ok data, w) ->
  generated_on D data.
Proof.
  intros HD Hrun. exists (steady_world D), w.
  destruct (steady_world_sane D HD) as (Hc & Hr & _).
  split; [exact Hc|]. split; [exact Hr|]. split; [reflexivity|exact Hrun].
Qed.

(* ================================================================== *)
(** * The data generator *)
(* ================================================================== *)





(** C8.  A call of the generator that returns leaves what it returns
    in the cache, and every later call in a world that still has this
    cache, whatever its clock and its random numbers, returns the same
    collection, in the same order, and neither reads the clock nor
    draws a number. *)
Theorem generate_sample_data_same_in_session (w w1 : world)
    (data : list WeatherRecord) :
  generate_sample_data w = (Ok data, w1) ->
  cache w1 = Some data /\
  forall w2, cache w2 = cache w1 ->
  generate_sample_data w2 = (Ok data, w2).
Proof.
  intros Hrun.
  pose proof (generate_sample_data_fills_cache w w1 data Hrun) as Hc.
  split; [exact Hc|]. intros w2 Hcache.
  apply generate_sample_data_cached. now rewrite Hcache.
Qed.

Lemma generate_sample_data_same_in_session_witness :
  exists data w1,
    generate_sample_data (steady_world 739000) = (Ok data, w1) /\
    cache w1 = Some data /\
    forall w2, cache w2 = cache w1 ->
    generate_sample_data w2 = (Ok data, w2).
Proof.
  destruct (generate_sample_data (steady_world 739000))
    as [[data|e] w1] eqn:E.
  - exists data, w1. split; [reflexivity|].
    exact (generate_sample_data_same_in_session _ _ _ E).
  - exfalso. vm_compute in E. discriminate E.
Defined.

(** C9.  In a collection generated while the clock showed one day, no
    two records have the same date and region: the records with the
    date and the region of a record of the collection are that record
    alone. *)
Theorem generated_key_unique (D : Z) (data : list WeatherRecord) :
  generated_on D data ->
  NoDup (map key data) /\
  forall x, In x data ->
    filter (fun y => String.eqb (date y) (date x)
                     && String.eqb (region y) (region x)) data = [x].
Proof.
  intros G. pose proof (generated_on_NoDup_keys D data G) as Hnd.
  split; [exact Hnd|]. intros x Hx.
  exact (unique_key_lookup data x Hnd Hx).
Qed.

Lemma generated_key_unique_witness :
  exists data,
    generated_on 739000 data /\
    NoDup (map key data) /\
    forall x, In x data ->
      filter (fun y => String.eqb (date y) (date x)
                       && String.eqb (region y) (region x)) data = [x].
Proof.
  destruct (generate_sample_data_body (steady_world 739000))
    as [[data|e] w1] eqn:E.
  - assert (G : generated_on 739000 data).
    { apply (steady_world_generated_on 739000 data w1); [|exact E].
      unfold Calendar.MAXORDINAL. lia. }
    exists data. split; [exact G|].
    exact (generated_key_unique 739000 data G).
  - exfalso. vm_compute in E. discriminate E.
Defined.

(* ================================================================== *)
(** * Loading and filtering *)
(* ================================================================== *)

Lemma selected_spec (day r : string) (x : WeatherRecord) :
  selected day r x = true <->
  date x = day /\ (r = "All Regions"%string \/ region x = r).
Proof.
  unfold selected.
  rewrite andb_true_iff, orb_true_iff, !String.eqb_eq. reflexivity.
Qed.

(** C1, as the code has it.  Whatever collection the generator hands
    over, [load_weather_data] returns, in their order, exactly its
    records whose date is the selected date as a string and, for a named
    region, whose region is that region; for "All Regions", all the
    records of the date.  When no two records of the collection share
    date and region, as in a collection generated within one day, a
    named region yields at most one record: that region's record for
    the date. *)
Theorem load_weather_data_filter (d : Z) (r : string) (w w1 : world)
    (data : list WeatherRecord) :
  generate_sample_data w = (Ok data, w1) ->
  exists df w2,
    load_weather_data d r w = (Ok df, w2) /\
    df = filter (selected (Calendar.strftime_ymd d) r) data /\
    (forall x, In x df <->
               In x data /\ date x = Calendar.strftime_ymd d /\
               (r = "All Regions"%string \/ region x = r)) /\
    (r = "All Regions"%string ->
     df = filter_by_date data (Calendar.strftime_ymd d)) /\
    (r <> "All Regions"%string ->
     (NoDup (map key data) \/ exists D, generated_on D data) ->
     df = [] \/
     exists x, df = [x] /\ In x data /\ region x = r /\
               date x = Calendar.strftime_ymd d).
Proof.
  intros Hgen. pose proof (load_weather_data_run d r w w1 data Hgen) as Hrun.
  cbv zeta in Hrun. set (day := Calendar.strftime_ymd d) in *.
  set (df := filter (selected day r) data) in *.
  assert (Hin : forall x, In x df <->
                  In x data /\ date x = day /\
                  (r = "All Regions"%string \/ region x = r)).
  { intros x. unfold df. rewrite filter_In, selected_spec. reflexivity. }
  eexists df, _. split; [exact Hrun|]. split; [reflexivity|].
  split; [exact Hin|]. split.
  - intros ->. unfold df, filter_by_date. apply filter_ext. intros x.
    unfold selected. cbn. now rewrite andb_true_r.
  - intros Hr Hkey.
    assert (Hnd : NoDup (map key data)).
    { destruct Hkey as [H|[D G]]; [exact H|].
      now apply (generated_on_NoDup_keys D). }
    destruct df as [|x rest] eqn:Edf; [now left|]. right.
    assert (Hx : In x data /\ date x = day /\ region x = r).
    { destruct (proj1 (Hin x) (or_introl eq_refl)) as (H1 & H2 & [H3|H3]);
        [contradiction | easy]. }
    destruct Hx as (Hx1 & Hx2 & Hx3).
    exists x. split; [|easy].
    rewrite <- Edf. subst df.
    rewrite <- (unique_key_lookup data x Hnd Hx1). apply filter_ext.
    intros y. unfold selected, key_eqb, key. cbn [fst snd].
    rewrite Hx2, Hx3.
    destruct (String.eqb r "All Regions") eqn:E; [|reflexivity].
    apply String.eqb_eq in E. contradiction.
Qed.

Lemma load_weather_data_filter_witness :
  exists data w1,
    generate_sample_data (steady_world 739000) = (Ok data, w1) /\
    exists df w2,
      load_weather_data 739000 "London" (steady_world 739000) = (Ok df, w2) /\
      df = filter (selected (Calendar.strftime_ymd 739000) "London") data /\
      (forall x, In x df <->
                 In x data /\ date x = Calendar.strftime_ymd 739000 /\
                 ("London"%string = "All Regions"%string
                  \/ region x = "London"%string)) /\
      ("London"%string = "All Regions"%string ->
       df = filter_by_date data (Calendar.strftime_ymd 739000)) /\
      ("London"%string <> "All Regions"%string ->
       (NoDup (map key data) \/ exists D, generated_on D data) ->
       df = [] \/
       exists x, df = [x] /\ In x data /\ region x = "London"%string /\
                 date x = Calendar.strftime_ymd 739000).
Proof.
  destruct (generate_sample_data (steady_world 739000))
    as [[data|e] w1] eqn:E.
  - exists data, w1. split; [reflexivity|].
    exact (load_weather_data_filter 739000 "London" _ _ _ E).
  - exfalso. vm_compute in E. discriminate E.
Defined.

(** C1 as it is stated fails: when midnight falls between the first and
    the second reading of the clock in the generator's loop, the first
    two days of the loop are the same day, and a named region yields two
    records for that date. *)
Lemma named_region_two_records :
  exists x y,
    returned (load_weather_data 739000 "London" (midnight_world 739000 1))
    = Some [x; y] /\
    x <> y /\
    region x = "London"%string /\ region y = "London"%string /\
    date x = Calendar.strftime_ymd 739000 /\
    date y = Calendar.strftime_ymd 739000.
Proof.
  eexists _, _. split; [vm_compute; reflexivity|].
  split; [discriminate|]. repeat split; reflexivity.
Qed.

(** C5.  When no record the generator hands over matches the selected
    date and region, [load_weather_data] returns the empty frame and
    puts the warning on the page; it does not raise. *)
Theorem load_weather_data_no_match (d : Z) (r : string) (w w1 : world)
    (data : list WeatherRecord) :
  generate_sample_data w = (Ok data, w1) ->
  (forall x, In x data -> selected (Calendar.strftime_ymd d) r x = false) ->
  load_weather_data d r w =
  (Ok [], add_element w1 (Warning "No data found for the selected filters."))
  /\ page (snd (load_weather_data d r w))
     = page w1 ++ [Warning "No data found for the selected filters."].
Proof.
  intros Hgen Hnone.
  pose proof (load_weather_data_run d r w w1 data Hgen) as Hrun.
  cbv zeta in Hrun. rewrite (filter_none _ data Hnone) in Hrun.
  cbn [empty] in Hrun. rewrite Hrun. split; reflexivity.
Qed.

Lemma load_weather_data_no_match_witness :
  exists data w1,
    generate_sample_data (steady_world 739000) = (Ok data, w1) /\
    (forall x, In x data ->
               selected (Calendar.strftime_ymd 738000) "London" x = false) /\
    load_weather_data 738000 "London" (steady_world 739000) =
    (Ok [], add_element w1 (Warning "No data found for the selected filters."))
    /\ page (snd (load_weather_data 738000 "London" (steady_world 739000)))
       = page w1 ++ [Warning "No data found for the selected filters."].
Proof.
  destruct (generate_sample_data (steady_world 739000))
    as [[data|e] w1] eqn:E.
  - assert (H : forall x, In x data ->
              selected (Calendar.strftime_ymd 738000) "London" x = false).
    { assert (F : forallb (fun x => negb (selected
                  (Calendar.strftime_ymd 738000) "London" x)) data = true).
      { pose proof E as E'. vm_compute in E'. apply Ok_inj in E' as [<- _].
        vm_compute. reflexivity. }
      intros x Hx. rewrite forallb_forall in F.
      apply negb_true_iff. now apply F. }
    exists data, w1. split; [reflexivity|]. split; [exact H|].
    exact (load_weather_data_no_match 738000 "London" _ _ _ E H).
  - exfalso. vm_compute in E. discriminate E.
Defined.

(** C7.  [load_weather_data] never raises: it returns a frame in every
    world, for every date and region.  An exception raised in its [try]
    block is caught: the message is put on the page as an error and the
    empty frame is returned. *)
Theorem load_weather_data_error_boundary (d : Z) (r : string) (w : world) :
  (exists df w', load_weather_data d r w = (Ok df, w')) /\
  (forall e w1,
     load_weather_data_try d r w = (Raise e, w1) ->
     load_weather_data d r w =
     (Ok [], add_element w1 (Error ("An error occurred: " ++ str e)))).
Proof.
  unfold load_weather_data, try_except.
  destruct (load_weather_data_try d r w) as [[df|e] w1].
  - split; [now exists df, w1 | discriminate].
  - split.
    + eexists _, _. reflexivity.
    + intros e' w1' E. injection E as <- <-. reflexivity.
Qed.

Lemma load_weather_data_error_boundary_witness :
  exists e w1,
    load_weather_data_try 5 "London" (steady_world 10) = (Raise e, w1) /\
    str e = "date value out of range"%string /\
    load_weather_data 5 "London" (steady_world 10) =
    (Ok [], add_element w1 (Error ("An error occurred: " ++ str e))).
Proof.
  destruct (load_weather_data_try 5 "London" (steady_world 10))
    as [[df|e] w1] eqn:E.
  - exfalso. vm_compute in E. discriminate E.
  - exists e, w1. split; [reflexivity|]. split.
    + vm_compute in E. injection E as <- _. reflexivity.
    + exact (proj2 (load_weather_data_error_boundary 5 "London"
                      (steady_world 10)) e w1 E).
Defined.

(* ================================================================== *)
(** * The date picker and the generator *)
(* ================================================================== *)

Lemma date_input_bounds_run (w : world) :
  clock_ok w ->
  date_input_bounds w =
  (Ok (toordinal (now_at w (1 + clock_reads w)%nat) - 30,
       toordinal (now_at w (2 + clock_reads w)%nat)),
   set_clock_draws w (3 + clock_reads w) (random_draws w)).
Proof.
  intros Hc. unfold date_input_bounds, bind, datetime_now, sub_days.
  cbn [now_at clock_reads random_at random_draws cache page toordinal].
  specialize (Hc (S (clock_reads w))).
  replace ((0 <? _) && (_ <=? Calendar.MAXORDINAL)) with true.
  - reflexivity.
  - symmetry. apply andb_true_iff. split; [apply Z.ltb_lt | apply Z.leb_le]; lia.
Qed.

(** A collection generated on the day [Dg] has no record for a day
    outside the thirty days ending with [Dg]. *)
Lemma generated_on_no_record (Dg d : Z) (r : string)
    (data : list WeatherRecord) :
  generated_on Dg data ->
  Calendar.MINORDINAL <= d <= Calendar.MAXORDINAL ->
  ~ (Dg - 29 <= d <= Dg) ->
  forall x, In x data -> selected (Calendar.strftime_ymd d) r x = false.
Proof.
  intros G Hd Hout x Hx.
  apply generated_on_keys in G as [HDg Hkeys].
  destruct (selected _ r x) eqn:E; [|reflexivity]. exfalso.
  apply selected_spec in E as [Edate _].
  assert (Hk : In (date x, region x) (keys_of (trailing_days Dg))).
  { rewrite <- Hkeys. now apply (in_map key). }
  apply in_keys_of in Hk as (d' & Hd' & E' & _).
  apply in_trailing_days in Hd'.
  rewrite Edate in E'. apply CalendarFacts.strftime_ymd_inj in E'.
  - lia.
  - exact Hd.
  - unfold Calendar.MINORDINAL. lia.
Qed.

(** C10, as the code has it.  Let every reading of the clock in a run
    of the script show the day [D], and let the cached collection, if
    there is one, have been generated on a day that is not one of the
    thirty days before [D] (on [D] itself, for one).  Then the earliest
    date the picker offers, thirty days before [D], has no record: the
    run ends with the empty frame and the warning. *)
Theorem earliest_date_empty (pick_region : list string -> string)
    (w : world) (D : Z) :
  clock_ok w -> rng_ok w ->
  (forall k, (clock_reads w <= k)%nat -> toordinal (now_at w k) = D) ->
  (forall data, cache w = Some data ->
     exists Dg, generated_on Dg data /\ (D <= Dg \/ Dg + 30 < D)) ->
  exists w',
    run_script earliest_date pick_region w = (Ok [], w') /\
    page w' = page w ++ [Warning "No data found for the selected filters."].
Proof.
  intros Hc Hr Hday Hcache.
  assert (HD : 30 < D <= Calendar.MAXORDINAL).
  { rewrite <- (Hday (clock_reads w)) by lia. apply Hc. }
  unfold run_script, bind at 1. rewrite (date_input_bounds_run w Hc).
  cbn [fst snd]. unfold earliest_date.
  rewrite (Hday (1 + clock_reads w)%nat) by lia.
  set (w3 := set_clock_draws w (3 + clock_reads w) (random_draws w)).
  assert (Hgen : exists data w4 Dg,
            generate_sample_data w3 = (Ok data, w4) /\
            cache w4 = Some data /\ page w4 = page w /\
            generated_on Dg data /\ (D <= Dg \/ Dg + 30 < D)).
  { unfold generate_sample_data, st_cache_data.
    change (cache w3) with (cache w).
    destruct (cache w) as [data|] eqn:Ecache.
    - destruct (Hcache data eq_refl) as (Dg & G & HDg).
      exists data, w3, Dg. repeat split; try assumption; reflexivity.
    - assert (Hc3 : clock_ok w3) by exact Hc.
      rewrite (generate_sample_data_body_run w3 Hc3).
      eexists _, _, D. split; [reflexivity|].
      split; [reflexivity|]. split; [reflexivity|]. split; [|lia].
      exists w3, (set_clock_draws w3 (30 + clock_reads w3)
                    (1200 + random_draws w3)).
      split; [exact Hc3|]. split; [exact Hr|]. split.
      + intros p Hp. apply Hday. cbn. lia.
      + now apply generate_sample_data_body_run. }
  destruct Hgen as (data & w4 & Dg & Hrun & Hc4 & Hp4 & G & HDg).
  unfold bind. rewrite Hrun.
  pose proof (generate_sample_data_cached w4 data Hc4) as Hagain.
  pose proof (load_weather_data_run (D - 30) (pick_region
                ("All Regions"%string :: sorted_set (map region data)))
                w4 w4 data Hagain) as Hload.
  cbv zeta in Hload. rewrite filter_none in Hload.
  - cbn [empty] in Hload. rewrite Hload.
    eexists. split; [reflexivity|]. cbn [add_element page]. now rewrite Hp4.
  - apply (generated_on_no_record Dg); [exact G | | lia].
    unfold Calendar.MINORDINAL. lia.
Qed.

Lemma earliest_date_empty_witness :
  exists w',
    run_script earliest_date first_option (steady_world 739000) = (Ok [], w') /\
    page w' = page (steady_world 739000)
              ++ [Warning "No data found for the selected filters."].
Proof.
  apply (earliest_date_empty first_option (steady_world 739000) 739000).
  - intros k. cbn. unfold Calendar.MAXORDINAL. lia.
  - exact sample_random_ok.
  - intros k _. reflexivity.
  - intros data E. discriminate E.
Defined.

(** C10 as it is stated fails: the collection is generated once and
    kept, the bounds of the picker follow the clock.  In a session that
    goes on into the next day the earliest date offered is the earliest
    day of the cached collection, and selecting it yields its eight
    records and no warning. *)
Lemma earliest_date_not_empty_next_day :
  let first_run := run_script latest_date first_option
                     (midnight_world 739000 33) in
  let second_run := run_script earliest_date first_option (snd first_run) in
  exists df,
    returned second_run = Some df /\
    List.length df = 8%nat /\
    Forall (fun x => date x = Calendar.strftime_ymd (739001 - 30)) df /\
    page (snd second_run) = page (snd first_run).
Proof.
  cbv zeta. eexists. split; [vm_compute; reflexivity|].
  split; [reflexivity|]. split.
  - repeat constructor.
  - vm_compute. reflexivity.
Qed.

(* ================================================================== *)
(** * The summary cards *)
(* ================================================================== *)







(* ================================================================== *)
(** * Writing and reading CSV *)
(* ================================================================== *)

Module CsvFacts.
Import Csv.

(** ** Characters *)

Lemma digit_value_digit (q : Z) :
  0 <= q <= 9 -> digit_value (Calendar.digit q) = Some q.
Proof.
  intros Hq.
  assert (E : q = 0 \/ q = 1 \/ q = 2 \/ q = 3 \/ q = 4 \/ q = 5 \/ q = 6
              \/ q = 7 \/ q = 8 \/ q = 9) by lia.
  repeat (destruct E as [-> | E]); try subst q; reflexivity.
Qed.

Lemma digit_is_digit (q : Z) : digit_value (Calendar.digit q) <> None.
Proof.
  unfold Calendar.digit.
  destruct q as [|p|p]; try (vm_compute; discriminate).
  do 4 (destruct p as [p|p|]; try (vm_compute; discriminate)).
Qed.

Lemma read_digits_stop (a : ascii) (s : string) (acc : Z) (c : nat) :
  digit_value a = None -> read_digits (String a s) acc c = (acc, c, String a s).
Proof. intros H. cbn [read_digits]. now rewrite H. Qed.

Lemma read_digits_step (q : Z) (s : string) (acc : Z) (c : nat) :
  0 <= q <= 9 ->
  read_digits (String (Calendar.digit q) s) acc c
  = read_digits s (10 * acc + q) (S c).
Proof. intros H. cbn [read_digits]. now rewrite digit_value_digit. Qed.

(** A character that is no digit is none of the digits written. *)
Lemma digit_neq (q : Z) (c : ascii) :
  digit_value c = None -> Ascii.eqb (Calendar.digit q) c = false.
Proof.
  intros Hc. destruct (Ascii.eqb_spec (Calendar.digit q) c) as [E|]; [|reflexivity].
  exfalso. apply (digit_is_digit q). now rewrite E.
Qed.

(** ** Which characters a written field has *)

Lemma contains_app (c : ascii) (s t : string) :
  contains c (s ++ t) = contains c s || contains c t.
Proof.
  induction s as [|a s IH]; [reflexivity|].
  cbn [append contains]. now rewrite IH, orb_assoc.
Qed.

Lemma contains_digits_of (c : ascii) (fuel : nat) :
  digit_value c = None ->
  forall n rest, contains c (digits_of fuel n rest) = contains c rest.
Proof.
  intros Hc. induction fuel as [|fuel IH]; intros n rest; [reflexivity|].
  cbn [digits_of]. destruct (n <? 10).
  - cbn [contains]. now rewrite digit_neq.
  - rewrite IH. cbn [contains]. now rewrite digit_neq.
Qed.

Lemma contains_frac_digits (c : ascii) (fuel : nat) (den : Z) :
  digit_value c = None ->
  forall num, contains c (frac_digits fuel num den) = false.
Proof.
  intros Hc. induction fuel as [|fuel IH]; intros num; [reflexivity|].
  cbn [frac_digits]. destruct (num =? 0); [reflexivity|].
  cbn [contains]. now rewrite digit_neq, IH.
Qed.

Lemma contains_write_int (c : ascii) (z : Z) :
  digit_value c = None -> c <> minus ->
  contains c (write_int z) = false.
Proof.
  intros Hc Hm. unfold write_int, write_nat.
  destruct (z <? 0); cbn [contains]; rewrite contains_digits_of by exact Hc.
  - rewrite orb_false_r. apply Ascii.eqb_neq. congruence.
  - reflexivity.
Qed.

Lemma contains_write_unsigned (c : ascii) (n d : Z) :
  digit_value c = None -> c <> dot ->
  contains c (write_unsigned n d) = false.
Proof.
  intros Hc Hd. unfold write_unsigned, write_nat. cbv zeta.
  rewrite contains_digits_of by exact Hc. cbn [contains].
  assert (Hdot : Ascii.eqb dot c = false) by (apply Ascii.eqb_neq; congruence).
  rewrite Hdot. cbn [orb].
  pose proof (contains_frac_digits c 17 d Hc (n mod d)) as H.
  destruct (frac_digits 17 (n mod d) d); [|exact H].
  cbn [contains]. rewrite orb_false_r. exact (digit_neq 0 c Hc).
Qed.

Lemma contains_write_float (c : ascii) (x : Q) :
  digit_value c = None -> c <> minus -> c <> dot ->
  contains c (write_float x) = false.
Proof.
  intros Hc Hm Hd. unfold write_float. cbv zeta.
  destruct (Qnum x <? 0); cbn [contains];
    rewrite contains_write_unsigned by assumption; [|reflexivity].
  rewrite orb_false_r. apply Ascii.eqb_neq. congruence.
Qed.

(** ** Splitting *)

Lemma split_free (sep : ascii) (s : string) :
  contains sep s = false -> split sep s = [s].
Proof.
  induction s as [|a s IH]; [reflexivity|].
  cbn [contains split]. intros H. apply orb_false_iff in H as [Ha Hs].
  now rewrite Ha, IH.
Qed.

Lemma split_app (sep : ascii) (s t : string) :
  contains sep s = false ->
  split sep (s ++ String sep t) = s :: split sep t.
Proof.
  induction s as [|a s IH].
  - intros _. cbn [append split]. now rewrite Ascii.eqb_refl.
  - cbn [contains append split]. intros H.
    apply orb_false_iff in H as [Ha Hs]. now rewrite Ha, IH.
Qed.

Lemma split_join (sep : ascii) (fields : list string) :
  fields <> [] ->
  Forall (fun f => contains sep f = false) fields ->
  split sep (join sep fields) = fields.
Proof.
  induction fields as [|f fields IH]; [contradiction|].
  intros _ H. apply Forall_cons_iff in H as [Hf Hfs].
  destruct fields as [|g fields].
  - cbn [join]. now apply split_free.
  - change (join sep (f :: g :: fields))
      with (f ++ String sep (join sep (g :: fields)))%string.
    rewrite split_app by exact Hf. f_equal. now apply IH.
Qed.

Lemma contains_join (c sep : ascii) (fields : list string) :
  Ascii.eqb sep c = false ->
  Forall (fun f => contains c f = false) fields ->
  contains c (join sep fields) = false.
Proof.
  intros Hsep H. induction H as [|f fields Hf Hfs IH]; [reflexivity|].
  destruct fields as [|g fields]; [exact Hf|].
  change (join sep (f :: g :: fields))
    with (f ++ String sep (join sep (g :: fields)))%string.
  rewrite contains_app, Hf. cbn [contains orb]. now rewrite Hsep, IH.
Qed.

Lemma split_write_lines (rows : list (list string)) :
  Forall (fun fields => contains newline (join comma fields) = false) rows ->
  split newline (write_lines rows) = map (join comma) rows ++ [EmptyString].
Proof.
  intros H. induction H as [|fields rows Hf Hrows IH]; [reflexivity|].
  cbn [write_lines map app]. rewrite split_app by exact Hf. now rewrite IH.
Qed.

Lemma read_lines_cons (l l' : string) (rest : list string) :
  read_lines (l :: l' :: rest) = l :: read_lines (l' :: rest).
Proof. destruct l; reflexivity. Qed.

Lemma read_lines_ended (lines : list string) :
  read_lines (lines ++ [EmptyString]) = lines.
Proof.
  induction lines as [|l lines IH]; [reflexivity|].
  cbn [app]. destruct (lines ++ [EmptyString]) as [|l' rest] eqn:E.
  - now destruct lines.
  - now rewrite read_lines_cons, IH.
Qed.

(** ** Reading numbers back *)

Lemma read_digits_digits_of (fuel : nat) :
  forall n rest acc c,
  0 <= n < 10 ^ Z.of_nat (S fuel) ->
  exists k,
    read_digits (digits_of (S fuel) n rest) acc c
    = read_digits rest (acc * 10 ^ Z.of_nat (S k) + n) (S k + c).
Proof.
  assert (Small : forall n rest acc c, 0 <= n < 10 ->
            read_digits (String (Calendar.digit (n mod 10)) rest) acc c
            = read_digits rest (acc * 10 ^ Z.of_nat 1 + n) (1 + c)).
  { intros n rest acc c Hn. cbn [read_digits].
    rewrite Z.mod_small, digit_value_digit by lia.
    f_equal. change (10 ^ Z.of_nat 1) with 10. lia. }
  induction fuel as [|fuel IH]; intros n rest acc c Hn.
  - exists 0%nat. cbn [digits_of]. change (10 ^ Z.of_nat 1) with 10 in Hn.
    destruct (Z.ltb_spec n 10); [|lia]. apply Small. lia.
  - cbn [digits_of]. destruct (Z.ltb_spec n 10) as [Hlt|Hge].
    + exists 0%nat. apply Small. lia.
    + rewrite Nat2Z.inj_succ, Z.pow_succ_r in Hn by lia.
      destruct (IH (n / 10) (String (Calendar.digit (n mod 10)) rest) acc c)
        as [k Hk].
      { split; [apply Z.div_pos; lia | apply Z.div_lt_upper_bound; lia]. }
      exists (S k). cbn [digits_of] in Hk. rewrite Hk. cbn [read_digits].
      pose proof (Z.mod_pos_bound n 10 ltac:(lia)) as Hm.
      rewrite digit_value_digit by lia. f_equal.
      rewrite (Nat2Z.inj_succ (S k)), Z.pow_succ_r by lia.
      pose proof (Z.div_mod n 10 ltac:(lia)). lia.
Qed.

Lemma digits_enough (n : Z) :
  0 <= n -> n < 10 ^ Z.of_nat (S (Z.to_nat (Z.log2 n))).
Proof.
  intros Hn. pose proof (Z.log2_nonneg n) as HL.
  rewrite Nat2Z.inj_succ, Z2Nat.id by exact HL.
  destruct (Z.eq_dec n 0) as [->|Hnz].
  - cbn. lia.
  - pose proof (Z.log2_spec n ltac:(lia)) as [_ Hup].
    pose proof (Z.pow_le_mono_l 2 10 (Z.succ (Z.log2 n)) ltac:(lia)). lia.
Qed.

Lemma read_digits_write_nat (n : Z) (rest : string) (acc : Z) (c : nat) :
  0 <= n ->
  exists k,
    read_digits (write_nat n rest) acc c
    = read_digits rest (acc * 10 ^ Z.of_nat (S k) + n) (S k + c).
Proof.
  intros Hn. unfold write_nat. apply read_digits_digits_of.
  split; [exact Hn | now apply digits_enough].
Qed.

Lemma digits_of_head (fuel : nat) :
  forall n rest,
  exists q s, digits_of (S fuel) n rest = String (Calendar.digit q) s.
Proof.
  induction fuel as [|fuel IH]; intros n rest.
  - cbn [digits_of]. destruct (n <? 10); eexists _, _; reflexivity.
  - cbn [digits_of]. destruct (n <? 10).
    + eexists _, _; reflexivity.
    + apply (IH (n / 10)).
Qed.

Lemma read_nat_write_nat (n : Z) :
  0 <= n -> read_nat (write_nat n EmptyString) = Some n.
Proof.
  intros Hn. unfold read_nat.
  destruct (read_digits_write_nat n EmptyString 0 0 Hn) as [k ->].
  cbn [read_digits Nat.add]. reflexivity.
Qed.

Lemma read_int_write_int (z : Z) : read_int (write_int z) = Some z.
Proof.
  unfold write_int. destruct (Z.ltb_spec z 0) as [Hneg|Hpos].
  - cbn [read_int]. rewrite Ascii.eqb_refl, read_nat_write_nat by lia.
    cbn [option_map]. f_equal. lia.
  - pose proof (read_nat_write_nat z Hpos) as Hread.
    unfold write_nat in *.
    destruct (digits_of_head (Z.to_nat (Z.log2 z)) z EmptyString) as (q & s & E).
    rewrite E in *. cbn [read_int].
    now rewrite (digit_neq q minus eq_refl).
Qed.

(** The digits after the point, read back, continue the number before
    the point to the numerator over a power of ten. *)
Lemma read_digits_frac_digits (den : Z) (k : nat) :
  forall fuel num acc c,
  (k <= fuel)%nat -> 0 <= num < den -> (den | num * 10 ^ Z.of_nat k) ->
  exists len V,
    read_digits (frac_digits fuel num den) acc c
    = (acc * 10 ^ Z.of_nat len + V, (len + c)%nat, EmptyString) /\
    V * den = num * 10 ^ Z.of_nat len /\
    (num <> 0 -> len <> 0%nat).
Proof.
  assert (Zero : forall fuel acc c,
            exists len V,
              read_digits (frac_digits fuel 0 den) acc c
              = (acc * 10 ^ Z.of_nat len + V, (len + c)%nat, EmptyString) /\
              V * den = 0 * 10 ^ Z.of_nat len /\ (0 <> 0 -> len <> 0%nat)).
  { intros fuel acc c. exists 0%nat, 0.
    destruct fuel; cbn [frac_digits Z.eqb read_digits];
      change (10 ^ Z.of_nat 0) with 1;
      (split; [f_equal; f_equal; lia | split; [lia | congruence]]). }
  induction k as [|k IH]; intros fuel num acc c Hk Hnum Hdiv.
  - assert (num = 0) as ->.
    { change (10 ^ Z.of_nat 0) with 1 in Hdiv. rewrite Z.mul_1_r in Hdiv.
      destruct (Z.eq_dec num 0) as [E|E]; [exact E|].
      apply Z.divide_pos_le in Hdiv; lia. }
    apply Zero.
  - destruct (Z.eq_dec num 0) as [->|Hnz]; [apply Zero|].
    destruct fuel as [|fuel]; [lia|].
    cbn [frac_digits]. destruct (Z.eqb_spec num 0) as [|_]; [contradiction|].
    set (q := 10 * num / den). set (num' := (10 * num) mod den).
    pose proof (Z.div_mod (10 * num) den ltac:(lia)) as Hdm.
    pose proof (Z.mod_pos_bound (10 * num) den ltac:(lia)) as Hmod.
    fold q num' in Hdm, Hmod.
    assert (Hq : 0 <= q <= 9).
    { split; [apply Z.div_pos; lia|].
      assert (q < 10) by (apply Z.div_lt_upper_bound; lia). lia. }
    assert (Hdiv' : (den | num' * 10 ^ Z.of_nat k)).
    { rewrite Nat2Z.inj_succ, Z.pow_succ_r in Hdiv by lia.
      replace (num' * 10 ^ Z.of_nat k)
        with (num * (10 * 10 ^ Z.of_nat k) - den * (q * 10 ^ Z.of_nat k))
        by nia.
      apply Z.divide_sub_r; [exact Hdiv|]. apply Z.divide_factor_l. }
    destruct (IH fuel num' (10 * acc + q) (S c) ltac:(lia) Hmod Hdiv')
      as (len & V & Hread & HV & _).
    exists (S len), (q * 10 ^ Z.of_nat len + V).
    cbn [read_digits]. rewrite digit_value_digit by exact Hq.
    rewrite Hread. rewrite Nat2Z.inj_succ, Z.pow_succ_r by lia.
    split; [f_equal; f_equal; lia|]. split; [nia | discriminate].
Qed.

Lemma Zpos_pow10 (k : nat) :
  Z.pos (Pos.pow 10 (Pos.of_nat (S k))) = 10 ^ Z.of_nat (S k).
Proof.
  rewrite Pos2Z.inj_pow. f_equal.
  rewrite <- Pos.of_nat_succ, Zpos_P_of_succ_nat. lia.
Qed.

(** A decimal number without sign is read back as it was written. *)
Lemma read_unsigned_float_written (n : Z) (p : positive) :
  0 <= n -> (Z.pos p | n * 10 ^ Z.of_nat 17) ->
  exists y,
    read_unsigned_float (write_unsigned n (Z.pos p)) = Some y /\
    (y == n # p)%Q.
Proof.
  intros Hn Hdiv. unfold write_unsigned. cbv zeta. set (d := Z.pos p) in *.
  pose proof (Z.div_mod n d ltac:(lia)) as Hdm.
  pose proof (Z.mod_pos_bound n d ltac:(lia)) as Hmod.
  assert (Hwhole : 0 <= n / d) by (apply Z.div_pos; lia).
  assert (Hdiv' : (d | n mod d * 10 ^ Z.of_nat 17)).
  { replace (n mod d * 10 ^ Z.of_nat 17)
      with (n * 10 ^ Z.of_nat 17 - d * (n / d * 10 ^ Z.of_nat 17)) by nia.
    apply Z.divide_sub_r; [exact Hdiv|]. apply Z.divide_factor_l. }
  destruct (read_digits_frac_digits d 17 17 (n mod d) (n / d) 0
              (le_n _) Hmod Hdiv') as (len & V & Hread & HV & Hlen).
  rewrite Nat.add_0_r in Hread.
  set (P := 10 ^ Z.of_nat len) in *.
  assert (Hsplit : n * P = n / d * P * d + n mod d * P).
  { rewrite Hdm at 1. ring. }
  unfold read_unsigned_float.
  destruct (frac_digits 17 (n mod d) d) as [|a s] eqn:Efrac.
  - destruct (read_digits_write_nat (n / d) (String dot "0") 0 0 Hwhole)
      as [k ->].
    cbn [read_digits] in Hread.
    assert (len = 0%nat) as Elen.
    { apply (f_equal (fun t => snd (fst t))) in Hread. exact (eq_sym Hread). }
    apply (f_equal (fun t => fst (fst t))) in Hread. cbn [fst] in Hread.
    subst len. change (10 ^ Z.of_nat 0) with 1 in P. subst P.
    rewrite (read_digits_stop dot) by reflexivity. cbn [Nat.add].
    rewrite Ascii.eqb_refl.
    change (String "0" EmptyString)
      with (String (Calendar.digit 0) EmptyString).
    rewrite read_digits_step by lia. cbn [read_digits].
    eexists. split; [reflexivity|].
    unfold Qeq. cbn [Qnum Qden]. change (Z.pos (10 ^ Pos.of_nat 1)) with 10.
    fold d. lia.
  - assert (Hnz : n mod d <> 0).
    { intros E. rewrite E in Efrac. discriminate Efrac. }
    destruct (read_digits_write_nat (n / d) (String dot (String a s)) 0 0
                Hwhole) as [k ->].
    rewrite (read_digits_stop dot) by reflexivity. cbn [Nat.add].
    rewrite Ascii.eqb_refl.
    replace (0 * 10 ^ Z.of_nat (S k) + n / d) with (n / d) by lia.
    rewrite Hread.
    destruct len as [|len]; [now elim (Hlen Hnz)|].
    eexists. split; [reflexivity|].
    unfold Qeq. cbn [Qnum Qden]. rewrite Zpos_pow10. fold d. fold P. lia.
Qed.

Lemma write_unsigned_head (n d : Z) :
  exists q s, write_unsigned n d = String (Calendar.digit q) s.
Proof. unfold write_unsigned, write_nat. apply digits_of_head. Qed.

(** A float is read back as it was written, when it is a decimal
    number of at most seventeen digits after the point. *)
Lemma read_float_write_float (x : Q) :
  decimal_places 17 x ->
  exists y, read_float (write_float x) = Some y /\ (y == x)%Q.
Proof.
  intros Hx. unfold decimal_places in Hx.
  destruct (read_unsigned_float_written (Z.abs (Qnum x)) (Qden x)
              (Z.abs_nonneg _) Hx) as (y & Hy & Ey).
  unfold write_float. cbv zeta.
  destruct (Z.ltb_spec (Qnum x) 0) as [Hneg|Hpos].
  - cbn [read_float]. rewrite Ascii.eqb_refl, Hy. cbn [option_map].
    exists (- y)%Q. split; [reflexivity|]. rewrite Ey.
    unfold Qeq, Qopp. cbn [Qnum Qden]. lia.
  - destruct (write_unsigned_head (Z.abs (Qnum x)) (Z.pos (Qden x)))
      as (q & s & E).
    rewrite E in *. cbn [read_float].
    rewrite (digit_neq q minus eq_refl).
    exists y. split; [exact Hy|]. rewrite Ey.
    unfold Qeq. cbn [Qnum Qden]. lia.
Qed.

Lemma read_string_write_string (s : string) :
  plain s -> write_string s = s /\ read_string s = Some s.
Proof.
  unfold plain, write_string, read_string, needs_quoting. intros H.
  rewrite H. apply orb_false_iff in H as [H _].
  apply orb_false_iff in H as [H _]. apply orb_false_iff in H as [_ H].
  now rewrite H.
Qed.

Lemma plain_free (s : string) :
  plain s -> contains comma s = false /\ contains newline s = false.
Proof.
  unfold plain, needs_quoting. intros H.
  apply orb_false_iff in H as [H _]. apply orb_false_iff in H as [H Hn].
  apply orb_false_iff in H as [Hc _]. now split.
Qed.

(** The fields of a written row have neither comma nor line feed. *)
Lemma write_row_free (d : WeatherRecord) :
  exportable d ->
  Forall (fun f => contains comma f = false) (write_row d) /\
  Forall (fun f => contains newline f = false) (write_row d).
Proof.
  intros (Hd & Hr & _).
  destruct (read_string_write_string _ Hd) as [Ed _].
  destruct (read_string_write_string _ Hr) as [Er _].
  destruct (plain_free _ Hd) as [Hd1 Hd2].
  destruct (plain_free _ Hr) as [Hr1 Hr2].
  unfold write_row. rewrite Ed, Er.
  split; repeat constructor; try assumption;
    solve [ apply contains_write_float; [reflexivity | discriminate ..]
          | apply contains_write_int; [reflexivity | discriminate] ].
Qed.

(** A row is read back with the values it was written with. *)
Lemma read_row_write_row (d : WeatherRecord) :
  exportable d ->
  exists d', read_row (write_row d) = Some d' /\ same_values d d'.
Proof.
  intros (Hd & Hr & Ht & Hw & Hp).
  destruct (read_string_write_string _ Hd) as [Ed Rd].
  destruct (read_string_write_string _ Hr) as [Er Rr].
  destruct (read_float_write_float _ Ht) as (t & Rt & Et).
  destruct (read_float_write_float _ Hw) as (ws & Rw & Ew).
  destruct (read_float_write_float _ Hp) as (pr & Rp & Ep).
  unfold write_row, read_row.
  rewrite Ed, Er, Rd, Rr, Rt, Rw, Rp, !read_int_write_int.
  eexists. split; [reflexivity|].
  unfold same_values. cbn.
  repeat split; try reflexivity; now symmetry.
Qed.

Lemma read_rows_written (df : DataFrame) :
  Forall exportable df ->
  exists df',
    read_rows (map (join comma) (map write_row df)) = Some df' /\
    Forall2 same_values df df'.
Proof.
  intros H. induction H as [|d df Hd Hdf IH].
  - exists []. split; [reflexivity | constructor].
  - destruct IH as (df' & Hread & Hsame).
    destruct (read_row_write_row d Hd) as (d' & Hrow & Hd').
    destruct (write_row_free d Hd) as [Hcomma _].
    cbn [map read_rows].
    rewrite split_join by (exact Hcomma || discriminate).
    rewrite Hrow, Hread. exists (d' :: df'). split; [reflexivity|].
    now constructor.
Qed.

(** Reading what [to_csv] wrote gives the rows back. *)
Lemma read_csv_to_csv (df : DataFrame) :
  Forall exportable df ->
  exists df',
    read_csv (to_csv df) = Some df' /\ Forall2 same_values df df'.
Proof.
  intros H. destruct (read_rows_written df H) as (df' & Hread & Hsame).
  exists df'. split; [|exact Hsame].
  unfold read_csv, to_csv. rewrite split_write_lines.
  - rewrite read_lines_ended. cbn [map].
    destruct (list_eq_dec string_dec (split comma (join comma header)) header)
      as [_|Hne]; [exact Hread|].
    exfalso. apply Hne. reflexivity.
  - constructor; [reflexivity|].
    apply Forall_forall. intros fields Hin.
    apply in_map_iff in Hin as (d & <- & Hd).
    rewrite Forall_forall in H.
    apply contains_join; [reflexivity|].
    now apply write_row_free, H.
Qed.

End CsvFacts.

(* ================================================================== *)
(** * The CSV export of a loaded frame *)
(* ================================================================== *)

Lemma strftime_ymd_plain (n : Z) : plain (Calendar.strftime_ymd n).
Proof.
  unfold plain, Calendar.strftime_ymd.
  destruct (Calendar._ord2ymd n) as [[y m] d].
  unfold Csv.needs_quoting, Calendar.pad4, Calendar.pad2. cbn [Csv.contains].
  rewrite !CsvFacts.digit_neq by reflexivity. reflexivity.
Qed.

Lemma regions_plain : Forall plain regions.
Proof. repeat constructor. Qed.

Lemma decimal_places_tenths (z : Z) : decimal_places 17 (z # 10).
Proof.
  unfold decimal_places. cbn [Qnum Qden]. apply Z.divide_mul_r.
  exists (10 ^ 16). reflexivity.
Qed.

Lemma decimal_places_hundredths (z : Z) : decimal_places 17 (z # 100).
Proof.
  unfold decimal_places. cbn [Qnum Qden]. apply Z.divide_mul_r.
  exists (10 ^ 15). reflexivity.
Qed.

Lemma record_of_exportable (n : Z) (name : string) (rnd : nat -> Q)
    (k : nat) :
  In name regions ->
  exportable (record_of (Calendar.strftime_ymd n) name rnd k).
Proof.
  intros Hin. unfold exportable, record_of.
  cbn [date region temperature wind_speed precipitation].
  split; [apply strftime_ymd_plain|].
  split; [exact (proj1 (Forall_forall _ _) regions_plain name Hin)|].
  split; [apply decimal_places_tenths|].
  split; [apply decimal_places_tenths | apply decimal_places_hundredths].
Qed.

Lemma generated_exportable (data : list WeatherRecord) :
  generated data -> Forall exportable data.
Proof.
  intros G. apply generated_shape in G as (now & rnd & c & k & _ & _ & ->).
  apply data_from_Forall. intros. now apply record_of_exportable.
Qed.

Lemma Forall_filter_of {A} (P : A -> Prop) (f : A -> bool) (l : list A) :
  Forall P l -> Forall P (filter f l).
Proof.
  rewrite !Forall_forall. intros H x Hx. apply filter_In in Hx. now apply H.
Qed.

(** C6.  The text behind the download button of a frame
    [load_weather_data] returned with records in it is the header line
    followed by one line for each record, and reading it gives the
    records of the frame back, in their order and with their values. *)
Theorem csv_round_trip (d : Z) (r : string) (w w' : world) (df : DataFrame) :
  sane w ->
  load_weather_data d r w = (Ok df, w') ->
  df <> [] ->
  exists text df',
    create_dashboard_csv df = Some text /\
    text = Csv.write_lines (Csv.header :: map Csv.write_row df) /\
    Csv.read_csv text = Some df' /\
    Forall2 same_values df df'.
Proof.
  intros Hs Hload Hne.
  destruct (generate_sample_data_run w Hs) as (data & w1 & Hgen & G & _).
  rewrite (load_weather_data_run d r w w1 data Hgen) in Hload.
  apply Ok_inj in Hload as [Hdf _].
  assert (Hexp : Forall exportable df).
  { rewrite <- Hdf. apply Forall_filter_of. now apply generated_exportable. }
  destruct (CsvFacts.read_csv_to_csv df Hexp) as (df' & Hread & Hsame).
  exists (Csv.to_csv df), df'.
  split; [|split; [reflexivity | split; assumption]].
  unfold create_dashboard_csv. destruct df; [contradiction | reflexivity].
Qed.

Lemma csv_round_trip_witness :
  exists df w',
    sane (steady_world 739000) /\
    load_weather_data 739000 "London" (steady_world 739000) = (Ok df, w') /\
    df <> [] /\
    exists text df',
      create_dashboard_csv df = Some text /\
      text = Csv.write_lines (Csv.header :: map Csv.write_row df) /\
      Csv.read_csv text = Some df' /\
      Forall2 same_values df df'.
Proof.
  assert (Hs : sane (steady_world 739000)).
  { apply steady_world_sane. unfold Calendar.MAXORDINAL. lia. }
  destruct (load_weather_data 739000 "London" (steady_world 739000))
    as [[df|e] w'] eqn:E.
  - assert (Hne : df <> []).
    { pose proof E as E'. vm_compute in E'. apply Ok_inj in E' as [<- _].
      discriminate. }
    exists df, w'. split; [exact Hs|]. split; [reflexivity|].
    split; [exact Hne|].
    exact (csv_round_trip 739000 "London" _ _ _ Hs E Hne).
  - exfalso. vm_compute in E. discriminate E.
Defined.
